(** * The Talk command-line setup wizard (bin/cli-setup)

    A shallow embedding of [performSetup] and of the promise chain that
    starts it, together with the properties of the installation flow that the
    specification states about them.

    The script talks to the outside through services it imports
    (SettingsService, MigrationService, UsersService, SetupService), through
    the inquirer prompt library and through the console.  A run is modelled as
    a computation that yields a completion and the chronological list of the
    calls it made; what the outside answers to each call is read from a
    [World]. *)

From stdpp Require Import gmap strings list.
From Stdlib Require Import ZArith.

(** ** JavaScript values met by the script *)

Inductive value :=
| VUndefined
| VBool (b : bool)
| VStr (s : string).

#[global] Instance value_eq_dec : EqDecision value.
Proof. solve_decision. Defined.

(** [if (v)], [v && ...] *)
Definition truthy (v : value) : bool :=
  match v with
  | VUndefined => false
  | VBool b => b
  | VStr s => negb (String.eqb s "")
  end.

(** [v.length]: only strings have one. *)
Definition jsLength (v : value) : option nat :=
  match v with
  | VStr s => Some (String.length s)
  | _ => None
  end.

(** [v.length > n] and [v.length >= n]; a comparison with [undefined] is
    false. *)
Definition lengthGt (v : value) (n : nat) : bool :=
  match jsLength v with Some l => Nat.ltb n l | None => false end.

Definition lengthGe (v : value) (n : nat) : bool :=
  match jsLength v with Some l => Nat.leb n l | None => false end.

(** [obj.key] on an answers object: [undefined] when the key is absent. *)
Definition get (key : string) (obj : gmap string value) : value :=
  default VUndefined (obj !! key).

(** ** What can be thrown *)

Inductive thrown :=
| ErrSettingsInit                 (* new ErrSettingsInit() *)
| ErrSettingsNotInit              (* new ErrSettingsNotInit() *)
| ServiceError (name : string)    (* any other error raised by a service *)
| JsError (message : string)      (* new Error(message) *)
| Message (m : value).            (* throw err.message *)

#[global] Instance thrown_eq_dec : EqDecision thrown.
Proof. solve_decision. Defined.

(** [err instanceof ErrSettingsNotInit] *)
Definition instanceofErrSettingsNotInit (err : thrown) : bool :=
  match err with
  | ErrSettingsNotInit => true
  | _ => false
  end.

(** ** The settings document

    [SettingModel] is imported from ../models/setting; the record keeps the
    paths of the document that the script reads or writes. *)

Record Setting := mkSetting {
  organizationName : value;
  moderation : value;
  requireEmailConfirmation : value;
  whitelist : list value            (* settings.domains.whitelist *)
}.

#[global] Instance Setting_eq_dec : EqDecision Setting.
Proof. solve_decision. Defined.

(** [settings[key] = v] for the paths of the three settings questions, the
    only keys an answers object of the first prompt can hold. *)
Definition assign (key : string) (v : value) (s : Setting) : Setting :=
  if decide (key = "organizationName") then
    mkSetting v (moderation s) (requireEmailConfirmation s) (whitelist s)
  else if decide (key = "moderation") then
    mkSetting (organizationName s) v (requireEmailConfirmation s) (whitelist s)
  else if decide (key = "requireEmailConfirmation") then
    mkSetting (organizationName s) (moderation s) v (whitelist s)
  else s.

(** [settings.domains.whitelist = l] *)
Definition setWhitelist (l : list value) (s : Setting) : Setting :=
  mkSetting (organizationName s) (moderation s) (requireEmailConfirmation s) l.

(** ** Calls observed during a run *)

Definition migration := string.

Inductive event :=
| ERetrieve                                   (* SettingsService.retrieve() *)
| EInit                                       (* SettingsService.init() *)
| EListPending                                (* MigrationService.listPending() *)
| ERun (migrations : list migration)          (* MigrationService.run(migrations) *)
| ENewSetting                                 (* new SettingModel() *)
| EAsk (name : string) (input : value)        (* a question answered at the prompt *)
| EValidUsername (username : value)           (* UsersService.isValidUsername(username, false) *)
| EValidPassword (password : value)           (* UsersService.isValidPassword(password) *)
| ESetup (settings : Setting) (user : gmap string value)
                                              (* SetupService.setup(ctx, {settings, user}) *)
| ELog (line : string)                        (* console.log(line) *)
| EError (e : thrown)                         (* console.error(e) *)
| EShutdown (code : option Z).                (* util.shutdown(code) *)

#[global] Instance event_eq_dec : EqDecision event.
Proof. solve_decision. Defined.

Definition trace := list event.

(** ** Completions and the run monad

    A statement of an async function completes normally, returns from the
    function, throws, or stays suspended on an await that is never
    resolved. *)

Inductive completion (A : Type) :=
| Normal (a : A)
| Returned
| Thrown (e : thrown)
| Waiting.

Arguments Normal {A} a.
Arguments Returned {A}.
Arguments Thrown {A} e.
Arguments Waiting {A}.

Definition M (A : Type) : Type := completion A * trace.

Definition ret {A} (a : A) : M A := (Normal a, []).

Definition bind {A B} (m : M A) (f : A -> M B) : M B :=
  match m with
  | (Normal a, t) => let '(c, t') := f a in (c, t ++ t')
  | (Returned, t) => (Returned, t)
  | (Thrown e, t) => (Thrown e, t)
  | (Waiting, t) => (Waiting, t)
  end.

Definition emit (e : event) : M unit := (Normal tt, [e]).
Definition throw {A} (e : thrown) : M A := (Thrown e, []).
Definition return_ {A} : M A := (Returned, []).
Definition waiting {A} : M A := (Waiting, []).

(** [try { body } catch (err) { handler }] *)
Definition tryCatch {A} (body : M A) (handler : thrown -> M A) : M A :=
  match body with
  | (Thrown e, t) => let '(c, t') := handler e in (c, t ++ t')
  | other => other
  end.

Declare Scope run_scope.
Delimit Scope run_scope with run.
Notation "x <- m ;; k" := (bind m (fun x => k))
  (at level 100, m at next level, right associativity) : run_scope.
Notation "m ;; k" := (bind m (fun _ => k))
  (at level 100, right associativity) : run_scope.
Open Scope run_scope.

Definition outcome {A} (m : M A) : completion A := fst m.
Definition calls {A} (m : M A) : trace := snd m.

(** ** The outside world

    One [World] fixes, for a run, the command line and the answer of every
    collaborator.  The validators of UsersService return a promise; the
    script only ever reads [err.message] of a rejection, so a rejection is
    recorded by that message. *)

Record World := mkWorld {
  defaults : bool;                               (* program.defaults *)
  retrieve : Setting + thrown;                   (* SettingsService.retrieve() *)
  init : option thrown;                          (* SettingsService.init(); None: resolved *)
  listPending : list migration + thrown;         (* MigrationService.listPending() *)
  run : list migration -> option thrown;         (* MigrationService.run(migrations) *)
  newSetting : Setting;                          (* new SettingModel() *)
  MODERATION_OPTIONS : list value;               (* ../models/enum/moderation_options *)
  submitted : string -> list value;              (* what is typed at each question, attempt after attempt *)
  isValidUsername : value -> bool -> value + value;
  isValidPassword : value -> value + value;
  setup : Setting -> gmap string value -> string + thrown
                                                 (* SetupService.setup: newUser.id *)
}.

(** ** Questions of the prompt library *)

Inductive qkind :=
| KInput
| KList (choices : list value)
| KConfirm
| KPassword.

Record question := mkQuestion {
  qkind_of : qkind;
  qname : string;
  qdefault : value;
  qwhen : gmap string value -> bool;
  qvalidate : value -> option string;            (* None: true; Some m: the message returned *)
  qfilter : value -> gmap string value -> M value
}.

Definition always (_ : gmap string value) : bool := true.
Definition valid (_ : value) : option string := None.
Definition unfiltered (v : value) (_ : gmap string value) : M value := ret v.

(** Modelled from the spec: inquirer is a third-party library that is not
    part of the sources at hand.  Questions are asked one at a time and in
    order; a question whose [when] is false on the answers so far is
    skipped; a value that fails [validate] is asked for again and does not
    end the run; a [filter] that rejects ends the collection with its
    reason.  A question left without an accepted answer keeps the run
    suspended. *)
Fixpoint ask (q : question) (answers : gmap string value)
    (attempts : list value) : M value :=
  match attempts with
  | [] => waiting
  | input :: rest =>
      emit (EAsk (qname q) input) ;;
      v <- qfilter q input answers ;;
      match qvalidate q v with
      | None => ret v
      | Some _ => ask q answers rest
      end
  end.

Section Run.

Variable w : World.

(** Modelled from the spec: the questions of one [inquirer.prompt] call,
    asked in order over the answers collected so far; each accepted value is
    stored under the name of its question. *)
Fixpoint promptFrom (answers : gmap string value) (questions : list question)
    : M (gmap string value) :=
  match questions with
  | [] => ret answers
  | q :: rest =>
      if qwhen q answers then
        v <- ask q answers (submitted w (qname q)) ;;
        promptFrom (<[qname q := v]> answers) rest
      else promptFrom answers rest
  end.

(** [inquirer.prompt(questions)] *)
Definition prompt (questions : list question) : M (gmap string value) :=
  promptFrom ∅ questions.

(** *** Service calls *)

Definition SettingsService_retrieve : M Setting :=
  emit ERetrieve ;;
  match retrieve w with
  | inl s => ret s
  | inr e => throw e
  end.

Definition SettingsService_init : M unit :=
  emit EInit ;;
  match init w with
  | None => ret tt
  | Some e => throw e
  end.

Definition MigrationService_listPending : M (list migration) :=
  emit EListPending ;;
  match listPending w with
  | inl ms => ret ms
  | inr e => throw e
  end.

Definition MigrationService_run (migrations : list migration) : M unit :=
  emit (ERun migrations) ;;
  match run w migrations with
  | None => ret tt
  | Some e => throw e
  end.

Definition SetupService_setup (settings : Setting) (user : gmap string value)
    : M string :=
  emit (ESetup settings user) ;;
  match setup w settings user with
  | inl id => ret id
  | inr e => throw e
  end.

Definition new_SettingModel : M Setting :=
  emit ENewSetting ;; ret (newSetting w).

Definition console_log (line : string) : M unit := emit (ELog line).

(** [promise.catch(err => { throw err.message; })] around a validator. *)
Definition orThrowMessage (r : value + value) : M value :=
  match r with
  | inl v => ret v
  | inr m => throw (Message m)
  end.

(** *** The questions of the wizard *)

(** [input && input.length > 0] *)
Definition nonEmpty (input : value) : bool := truthy input && lengthGt input 0.

Definition organizationNameQ (settings : Setting) : question :=
  mkQuestion KInput "organizationName" (organizationName settings) always
    (fun input => if nonEmpty input then None
                  else Some "Organization Name is required.")
    unfiltered.

Definition moderationQ (settings : Setting) : question :=
  mkQuestion (KList (MODERATION_OPTIONS w)) "moderation" (moderation settings)
    always valid unfiltered.

Definition requireEmailConfirmationQ (settings : Setting) : question :=
  mkQuestion KConfirm "requireEmailConfirmation"
    (requireEmailConfirmation settings) always valid unfiltered.

Definition inputWhitelistedDomainsQ : question :=
  mkQuestion KConfirm "inputWhitelistedDomains" (VBool true) always valid
    unfiltered.

Definition whitelistedDomainQ : question :=
  mkQuestion KInput "whitelistedDomain" VUndefined
    (fun answers => truthy (get "inputWhitelistedDomains" answers))
    (fun input => if nonEmpty input then None
                  else Some "Whitelisted Domain cannot be empty.")
    unfiltered.

Definition usernameFilter (username : value) (_ : gmap string value) : M value :=
  emit (EValidUsername username) ;;
  orThrowMessage (isValidUsername w username false).

Definition usernameQ : question :=
  mkQuestion KInput "username" VUndefined always valid usernameFilter.

Definition emailQ : question :=
  mkQuestion KInput "email" VUndefined always
    (fun v => if truthy v && lengthGe v 3 then None
              else Some "Email is required")
    unfiltered.

Definition passwordFilter (password : value) (_ : gmap string value) : M value :=
  emit (EValidPassword password) ;;
  orThrowMessage (isValidPassword w password).

Definition passwordQ : question :=
  mkQuestion KPassword "password" VUndefined always valid passwordFilter.

Definition confirmPasswordFilter (confirmPassword : value)
    (answers : gmap string value) : M value :=
  let password := get "password" answers in
  if decide (password ≠ confirmPassword) then
    throw (JsError "Passwords do not match")
  else
    emit (EValidPassword confirmPassword) ;;
    orThrowMessage (isValidPassword w confirmPassword).

Definition confirmPasswordQ : question :=
  mkQuestion KPassword "confirmPassword" VUndefined always valid
    confirmPasswordFilter.

(** *** Lines printed *)

Definition nl : string := String (Ascii.ascii_of_nat 10) "".

Definition introLine : string :=
  nl ++ "We'll ask you some questions in order to setup your installation of Talk." ++ nl.
Definition adminLine : string :=
  nl ++ "We'll ask you some questions about your first admin user." ++ nl.
Definition settingsCreatedLine : string := "Settings created.".
Definition userCreatedLine (id : string) : string := "User " ++ id ++ " created.".
Definition installedLine : string := nl ++ "Talk is now installed!".
Definition lockLine : string :=
  nl ++ "We recommend adding TALK_INSTALL_LOCK=TRUE to your environment to turn off the dynamic setup.".

(** *** performSetup *)

(** Lines 38-53: the [try]/[catch] around [SettingsService.retrieve]. *)
Definition checkSettings : M unit :=
  tryCatch
    (SettingsService_retrieve ;;
     throw ErrSettingsInit)
    (fun err =>
       if instanceofErrSettingsNotInit err then return_
       else throw err).

(** Lines 55-68: the branch taken under [--defaults]. *)
Definition applyDefaults : M unit :=
  SettingsService_init ;;
  migrations <- MigrationService_listPending ;;
  MigrationService_run migrations ;;
  console_log settingsCreatedLine ;;
  console_log installedLine ;;
  return_.

(** Lines 107-111: [Object.keys(answers).forEach(...)]. *)
Definition updateSettings (answers : gmap string value) (settings : Setting)
    : Setting :=
  map_fold
    (fun key v s => if decide (v = VUndefined) then s else assign key v s)
    settings answers.

(** Lines 135-137. *)
Definition applyWhitelist (answers : gmap string value) (settings : Setting)
    : Setting :=
  if truthy (get "inputWhitelistedDomains" answers) then
    setWhitelist [get "whitelistedDomain" answers] settings
  else settings.

(** Lines 193-197: the [user] object literal handed to [SetupService.setup]. *)
Definition userPayload (user : gmap string value) : gmap string value :=
  {[ "email" := get "email" user;
     "username" := get "username" user;
     "password" := get "password" user ]}.

(** The three question lists, lines 77-104, 113-133 and 141-188. *)
Definition settingsQuestions (settings : Setting) : list question :=
  [organizationNameQ settings; moderationQ settings;
   requireEmailConfirmationQ settings].

Definition whitelistQuestions : list question :=
  [inputWhitelistedDomainsQ; whitelistedDomainQ].

Definition userQuestions : list question :=
  [usernameQ; emailQ; passwordQ; confirmPasswordQ].

(** Lines 70-206: the interactive wizard.  [Context.forSystem()] builds the
    context argument of the setup call and [settings.toObject()] copies the
    document; neither is observed. *)
Definition wizard : M unit :=
  settings <- new_SettingModel ;;
  console_log introLine ;;
  answers <- prompt (settingsQuestions settings) ;;
  let settings := updateSettings answers settings in
  answers <- prompt whitelistQuestions ;;
  let settings := applyWhitelist answers settings in
  console_log adminLine ;;
  user <- prompt userQuestions ;;
  newUserId <- SetupService_setup settings (userPayload user) ;;
  console_log settingsCreatedLine ;;
  console_log (userCreatedLine newUserId) ;;
  console_log installedLine ;;
  console_log lockLine.

(** Lines 55-206: what follows the [try]/[catch] statement. *)
Definition installSteps : M unit :=
  if defaults w then applyDefaults else wizard.

Definition performSetup : M unit :=
  checkSettings ;;
  installSteps.

(** Lines 209-216: [performSetup().then(...).catch(...)]. *)
Definition main : trace :=
  match performSetup with
  | (Normal _, t) | (Returned, t) => t ++ [EShutdown None]
  | (Thrown e, t) => t ++ [EError e; EShutdown (Some 1%Z)]
  | (Waiting, t) => t
  end.

End Run.

(** Modelled from the spec: [util.shutdown] is imported from ./util, which is
    not part of the sources at hand.  The process exits 0 on a finished run
    and non-zero on a failed one: [shutdown] ends the process with the code
    it is given, and with 0 when it is given none. *)
Fixpoint exitCode (t : trace) : option Z :=
  match t with
  | [] => None
  | EShutdown code :: _ => Some (default 0%Z code)
  | _ :: rest => exitCode rest
  end.

(** ** Concrete worlds *)

Definition engineDefaults : Setting :=
  mkSetting (VStr "") (VStr "POST") (VBool false) [].

Definition noInput (_ : string) : list value := [].

Definition acceptAll (v : value) : value + value := inl v.

(** A store that answers [retrieve] with [r], in the mode [d], with two
    pending migrations, silent at the prompt. *)
Definition quietWorld (d : bool) (r : Setting + thrown) : World :=
  mkWorld d r None (inl ["1516920160_a"; "1517407355_b"]) (fun _ => None)
    engineDefaults [VStr "PRE"; VStr "POST"] noInput
    (fun v _ => acceptAll v) acceptAll (fun _ _ => inl "u1").

Definition freshDefaults : World := quietWorld true (inr ErrSettingsNotInit).
Definition freshInteractive : World := quietWorld false (inr ErrSettingsNotInit).
Definition installed : World := quietWorld true (inl engineDefaults).

(** The end-to-end scenario of the specification: organization Acme,
    pre-moderation, confirmed emails, no whitelist, administrator admin. *)
Definition acmeInput (name : string) : list value :=
  if decide (name = "organizationName") then [VStr ""; VStr "Acme"]
  else if decide (name = "moderation") then [VStr "PRE"]
  else if decide (name = "requireEmailConfirmation") then [VBool true]
  else if decide (name = "inputWhitelistedDomains") then [VBool false]
  else if decide (name = "whitelistedDomain") then [VStr "acme.example"]
  else if decide (name = "username") then [VStr "admin"]
  else if decide (name = "email") then [VStr "a@b.com"]
  else if decide (name = "password") then [VStr "Str0ngPass!"]
  else if decide (name = "confirmPassword") then [VStr "Str0ngPass!"]
  else [].

Definition acme : World :=
  mkWorld false (inr ErrSettingsNotInit) None (inl ["1516920160_a"])
    (fun _ => None) engineDefaults [VStr "PRE"; VStr "POST"] acmeInput
    (fun v _ => acceptAll v) acceptAll (fun _ _ => inl "u1").

(** The same wizard with a whitelisted domain, on a settings model whose
    whitelist is not empty to begin with. *)
Definition exampleInput (name : string) : list value :=
  if decide (name = "inputWhitelistedDomains") then [VBool true]
  else if decide (name = "whitelistedDomain") then [VStr ""; VStr "example.com"]
  else acmeInput name.

Definition example : World :=
  mkWorld false (inr ErrSettingsNotInit) None (inl ["1516920160_a"])
    (fun _ => None)
    (mkSetting (VStr "") (VStr "POST") (VBool false) [VStr "old.example"])
    [VStr "PRE"; VStr "POST"] exampleInput
    (fun v _ => acceptAll v) acceptAll (fun _ _ => inl "u1").

(** Password Abc12345 confirmed as different. *)
Definition mismatchInput (name : string) : list value :=
  if decide (name = "password") then [VStr "Abc12345"]
  else if decide (name = "confirmPassword") then [VStr "different"]
  else acmeInput name.

Definition mismatch : World :=
  mkWorld false (inr ErrSettingsNotInit) None (inl ["1516920160_a"])
    (fun _ => None) engineDefaults [VStr "PRE"; VStr "POST"] mismatchInput
    (fun v _ => acceptAll v) acceptAll (fun _ _ => inl "u1").

(** A store that cannot be reached. *)
Definition storeDown : World :=
  quietWorld false (inr (ServiceError "MongoNetworkError")).

(** Defaults mode on an empty store where running the migrations fails. *)
Definition migrationFails : World :=
  mkWorld true (inr ErrSettingsNotInit) None (inl ["1516920160_a"])
    (fun _ => Some (ServiceError "migration failed"))
    engineDefaults [VStr "PRE"; VStr "POST"] noInput
    (fun v _ => acceptAll v) acceptAll (fun _ _ => inl "u1").

(** The wizard of the end-to-end scenario with a username that is taken. *)
Definition takenUsername : World :=
  mkWorld false (inr ErrSettingsNotInit) None (inl ["1516920160_a"])
    (fun _ => None) engineDefaults [VStr "PRE"; VStr "POST"] acmeInput
    (fun _ _ => inr (VStr "Username already in use")) acceptAll
    (fun _ _ => inl "u1").

(** The same wizard with a password policy that rejects everything. *)
Definition weakPassword : World :=
  mkWorld false (inr ErrSettingsNotInit) None (inl ["1516920160_a"])
    (fun _ => None) engineDefaults [VStr "PRE"; VStr "POST"] acmeInput
    (fun v _ => acceptAll v) (fun _ => inr (VStr "Password is too short"))
    (fun _ _ => inl "u1").

(** The same wizard with a setup service that fails. *)
Definition setupFails : World :=
  mkWorld false (inr ErrSettingsNotInit) None (inl ["1516920160_a"])
    (fun _ => None) engineDefaults [VStr "PRE"; VStr "POST"] acmeInput
    (fun v _ => acceptAll v) acceptAll
    (fun _ _ => inr (ServiceError "setup failed")).

(** ** Observations on a trace *)

(** A write: a settings record, an account or a migration run. *)
Definition isWrite (e : event) : bool :=
  match e with
  | EInit | ERun _ | ESetup _ _ => true
  | _ => false
  end.

(** The calls that persist the settings. *)
Definition isPersist (e : event) : bool :=
  match e with
  | EInit | ESetup _ _ => true
  | _ => false
  end.

(** The calls to the migration registry. *)
Definition isMigrationCall (e : event) : bool :=
  match e with
  | EListPending | ERun _ => true
  | _ => false
  end.

(** Anything the script does besides probing the store and shutting down. *)
Definition isSideEffect (e : event) : bool :=
  match e with
  | ERetrieve | EShutdown _ => false
  | _ => true
  end.

(** The success report closes with the line that says Talk is installed. *)
Definition reportsSuccess (t : trace) : bool :=
  bool_decide (ELog installedLine ∈ t).

(** The calls a prompt makes: questions answered and validator calls. *)
Definition isPromptCall (names : list string) (e : event) : Prop :=
  match e with
  | EAsk n _ => n ∈ names
  | EValidUsername _ | EValidPassword _ => True
  | _ => False
  end.

(** A filter that calls nothing but the validators. *)
Definition quiet (q : question) : Prop :=
  ∀ v answers, Forall (isPromptCall []) (calls (qfilter q v answers)).

(** What the settings loop leaves in a field: the answer stored under its
    key when there is one and it is not [undefined], the former value
    otherwise. *)
Definition answerOr (answers : gmap string value) (key : string) (old : value)
    : value :=
  match answers !! key with
  | Some v => if decide (v = VUndefined) then old else v
  | None => old
  end.

(** The first value of [attempts] that [validate] accepts, and the values
    typed up to and including it. *)
Definition accepted (validate : value -> option string) (attempts : list value)
    : option value :=
  List.find (fun v => bool_decide (validate v = None)) attempts.

Fixpoint typedUntil (validate : value -> option string) (attempts : list value)
    : list value :=
  match attempts with
  | [] => []
  | v :: rest =>
      match validate v with
      | None => [v]
      | Some _ => v :: typedUntil validate rest
      end
  end.

(** Settles a closed decidable goal by evaluation. *)
Ltac by_decision :=
  match goal with
  | |- ?P => apply (@bool_decide_unpack P _); vm_compute; exact I
  end.

(** ** The run monad *)

Lemma bind_Normal {A B} (a : A) (t : trace) (f : A -> M B) :
  bind (Normal a, t) f = (outcome (f a), t ++ calls (f a)).
Proof. unfold bind, outcome, calls. by destruct (f a). Qed.

Lemma bind_emit {B} (e : event) (k : M B) :
  (emit e ;; k) = (outcome k, e :: calls k).
Proof. unfold emit. by rewrite bind_Normal. Qed.

Lemma bind_ret {A B} (a : A) (f : A -> M B) : bind (ret a) f = f a.
Proof. unfold ret. rewrite bind_Normal. by destruct (f a). Qed.

Lemma calls_bind {A B} (m : M A) (f : A -> M B) :
  calls (bind m f) =
  calls m ++ match outcome m with Normal a => calls (f a) | _ => [] end.
Proof.
  destruct m as [[a| |e|] t]; simpl; rewrite ?app_nil_r; try done.
  by destruct (f a).
Qed.

Lemma outcome_bind {A B} (m : M A) (f : A -> M B) :
  outcome (bind m f) =
  match outcome m with
  | Normal a => outcome (f a)
  | Returned => Returned
  | Thrown e => Thrown e
  | Waiting => Waiting
  end.
Proof. destruct m as [[a| |e|] t]; simpl; try done. by destruct (f a). Qed.

Lemma bind_assoc {A B C} (m : M A) (f : A -> M B) (g : B -> M C) :
  bind (bind m f) g = bind m (λ a, bind (f a) g).
Proof.
  destruct m as [[a| |e|] t]; simpl; try done.
  destruct (f a) as [[b| |e|] t']; simpl; try done.
  destruct (g b). by rewrite app_assoc.
Qed.

Lemma bind_ext {A B} (m : M A) (f g : A -> M B) :
  (∀ a, f a = g a) -> bind m f = bind m g.
Proof. intros H. destruct m as [[a| |e|] t]; simpl; try done. by rewrite H. Qed.

(** ** The guard: lines 38-53 *)

Lemma checkSettings_run (w : World) :
  checkSettings w =
  match retrieve w with
  | inl _ => (Thrown ErrSettingsInit, [ERetrieve])
  | inr err =>
      if instanceofErrSettingsNotInit err then (Returned, [ERetrieve])
      else (Thrown err, [ERetrieve])
  end.
Proof.
  unfold checkSettings, SettingsService_retrieve.
  destruct (retrieve w) as [s|err]; [done|].
  by destruct err.
Qed.

(** Every path through the [try]/[catch] returns or throws: the statements
    after it are never reached. *)
Lemma performSetup_run (w : World) : performSetup w = checkSettings w.
Proof.
  unfold performSetup. rewrite checkSettings_run.
  destruct (retrieve w) as [s|err]; [done|].
  by destruct (instanceofErrSettingsNotInit err).
Qed.

Lemma main_uninitialized (w : World) :
  retrieve w = inr ErrSettingsNotInit ->
  main w = [ERetrieve; EShutdown None].
Proof.
  intros H. unfold main. by rewrite performSetup_run, checkSettings_run, H.
Qed.

(** A run that throws prints the error and shuts down with code 1. *)
Lemma main_failed (w : World) (e : thrown) (t : trace) :
  performSetup w = (Thrown e, t) ->
  main w = t ++ [EError e; EShutdown (Some 1%Z)].
Proof. intros H. unfold main. by rewrite H. Qed.

(** C1. The specification has the run go on after a "not initialized"
    answer of the store: collect the configuration (or take the defaults)
    and persist the settings.  On an empty store, in either mode,
    [performSetup] returns right after [SettingsService.retrieve]; with
    [--defaults] it never calls [SettingsService.init], although the steps
    after the guard would have initialised the settings and run the
    migrations. *)
Theorem C1_uninitialized_run_stops_at_guard :
  performSetup freshDefaults = (Returned, [ERetrieve]) ∧
  performSetup acme = (Returned, [ERetrieve]) ∧
  existsb isPersist (calls (performSetup freshDefaults)) = false ∧
  installSteps freshDefaults =
    (Returned,
     [EInit; EListPending; ERun ["1516920160_a"; "1517407355_b"];
      ELog settingsCreatedLine; ELog installedLine]).
Proof. by vm_compute. Qed.

(** C2. When the store already holds a settings record, [performSetup]
    throws [ErrSettingsInit] having made no call but [retrieve]: nothing is
    written, the error is printed and the process shuts down with code 1. *)
Theorem C2_already_installed (w : World) (s : Setting) :
  retrieve w = inl s ->
  performSetup w = (Thrown ErrSettingsInit, [ERetrieve]) ∧
  main w = [ERetrieve; EError ErrSettingsInit; EShutdown (Some 1%Z)] ∧
  filter isWrite (main w) = [] ∧
  exitCode (main w) = Some 1%Z.
Proof.
  intros H.
  assert (Hrun : performSetup w = (Thrown ErrSettingsInit, [ERetrieve]))
    by (by rewrite performSetup_run, checkSettings_run, H).
  split; [done|].
  rewrite (main_failed _ _ _ Hrun). by vm_compute.
Qed.

Lemma C2_already_installed_witness :
  performSetup installed = (Thrown ErrSettingsInit, [ERetrieve]) ∧
  main installed = [ERetrieve; EError ErrSettingsInit; EShutdown (Some 1%Z)] ∧
  filter isWrite (main installed) = [] ∧
  exitCode (main installed) = Some 1%Z.
Proof. apply (C2_already_installed installed engineDefaults). reflexivity. Defined.

(** C9. On an empty store ([retrieve] fails with [ErrSettingsNotInit]) the
    catch block returns from [performSetup]: the run makes the [retrieve]
    call and no other, so nothing is initialised, asked, created, listed or
    run, and the process shuts down with code 0. *)
Theorem C9_uninitialized_returns_at_guard (w : World) :
  retrieve w = inr ErrSettingsNotInit ->
  performSetup w = (Returned, [ERetrieve]) ∧
  main w = [ERetrieve; EShutdown None] ∧
  filter isSideEffect (main w) = [] ∧
  exitCode (main w) = Some 0%Z.
Proof.
  intros H. split.
  - by rewrite performSetup_run, checkSettings_run, H.
  - rewrite (main_uninitialized _ H). by vm_compute.
Qed.

Lemma C9_uninitialized_returns_at_guard_witness :
  performSetup freshInteractive = (Returned, [ERetrieve]) ∧
  main freshInteractive = [ERetrieve; EShutdown None] ∧
  filter isSideEffect (main freshInteractive) = [] ∧
  exitCode (main freshInteractive) = Some 0%Z.
Proof. apply (C9_uninitialized_returns_at_guard freshInteractive). reflexivity. Defined.

(** ** The defaults branch: lines 55-68 *)

Lemma applyDefaults_run (w : World) :
  applyDefaults w =
  match init w with
  | Some e => (Thrown e, [EInit])
  | None =>
      match listPending w with
      | inr e => (Thrown e, [EInit; EListPending])
      | inl ms =>
          match run w ms with
          | Some e => (Thrown e, [EInit; EListPending; ERun ms])
          | None =>
              (Returned,
               [EInit; EListPending; ERun ms;
                ELog settingsCreatedLine; ELog installedLine])
          end
      end
  end.
Proof.
  unfold applyDefaults, SettingsService_init, MigrationService_listPending,
    MigrationService_run.
  destruct (init w); [done|].
  destruct (listPending w) as [ms|e]; [|done].
  simpl. by destruct (run w ms).
Qed.

(** C4. In Defaults mode on an empty store the specification has one
    settings record created through [SettingsService.init] and the pending
    migrations run once.  The run returns at the guard instead:
    [SettingsService.init] is called zero times and the migration registry
    is never called. *)
Theorem C4_defaults_run_creates_no_settings :
  main freshDefaults = [ERetrieve; EShutdown None] ∧
  length (filter (λ e, bool_decide (e = EInit)) (main freshDefaults)) = 0 ∧
  filter isMigrationCall (main freshDefaults) = [].
Proof. by vm_compute. Qed.

(** C8. Exit code 0 is meant for a run that went through to the success
    report.  On an empty store the interactive run shuts down with code 0
    although it persisted nothing and printed no success report. *)
Theorem C8_exit_zero_without_done :
  exitCode (main freshInteractive) = Some 0%Z ∧
  reportsSuccess (main freshInteractive) = false ∧
  existsb isPersist (main freshInteractive) = false.
Proof. by vm_compute. Qed.

(** ** Asking a question *)

Lemma isPromptCall_weaken (names : list string) (e : event) :
  isPromptCall [] e -> isPromptCall names e.
Proof. destruct e; simpl; try done. intros H. by apply elem_of_nil in H. Qed.

Lemma ask_calls (q : question) (answers : gmap string value)
    (attempts : list value) (names : list string) :
  qname q ∈ names -> quiet q ->
  Forall (isPromptCall names) (calls (ask q answers attempts)).
Proof.
  intros Hname Hquiet.
  induction attempts as [|input rest IH]; [by constructor|].
  cbn [ask]. rewrite bind_emit. cbn [calls snd]. constructor; [done|].
  rewrite calls_bind. apply Forall_app. split.
  - eapply Forall_impl; [apply Hquiet|]. intros e. apply isPromptCall_weaken.
  - destruct (outcome (qfilter q input answers)) as [v| | |]; try by constructor.
    destruct (qvalidate q v); [done|by constructor].
Qed.

(** A question without a filter is asked until an input is valid. *)
Lemma ask_unfiltered (q : question) (answers : gmap string value)
    (attempts : list value) :
  qfilter q = unfiltered ->
  ask q answers attempts =
  (match accepted (qvalidate q) attempts with
   | Some v => Normal v
   | None => Waiting
   end,
   map (EAsk (qname q)) (typedUntil (qvalidate q) attempts)).
Proof.
  intros Hf. induction attempts as [|input rest IH]; [done|].
  cbn [ask]. rewrite Hf, bind_emit. unfold unfiltered at 1. rewrite bind_ret.
  unfold accepted. simpl.
  destruct (qvalidate q input) eqn:Hv; simpl.
  - rewrite IH. done.
  - done.
Qed.

(** A question without a validation is settled by its filter on the first
    input. *)
Lemma ask_filtered (q : question) (answers : gmap string value)
    (input : value) (rest : list value) :
  qvalidate q = valid ->
  ask q answers (input :: rest) =
  (outcome (qfilter q input answers),
   EAsk (qname q) input :: calls (qfilter q input answers)).
Proof.
  intros Hv. cbn [ask]. rewrite bind_emit, Hv. f_equal.
  - rewrite outcome_bind. by destruct (outcome (qfilter q input answers)).
  - f_equal. rewrite calls_bind.
    destruct (outcome (qfilter q input answers)); simpl; by rewrite app_nil_r.
Qed.

Lemma accepted_valid (input : value) (rest : list value) :
  accepted valid (input :: rest) = Some input.
Proof. done. Qed.

Lemma accepted_Some (validate : value -> option string)
    (attempts : list value) (v : value) :
  accepted validate attempts = Some v -> validate v = None ∧ v ∈ attempts.
Proof.
  unfold accepted. intros H. apply find_some in H as [Hin Hok].
  split; [by apply bool_decide_eq_true in Hok|by apply list_elem_of_In].
Qed.

Lemma promptFrom_calls (w : World) (questions : list question)
    (names : list string) (answers : gmap string value) :
  Forall (λ q, qname q ∈ names ∧ quiet q) questions ->
  Forall (isPromptCall names) (calls (promptFrom w answers questions)).
Proof.
  intros Hqs. revert answers.
  induction Hqs as [|q rest [Hname Hquiet] _ IH]; intros answers; simpl;
    [by constructor|].
  destruct (qwhen q answers); [|apply IH].
  rewrite calls_bind. apply Forall_app. split; [by apply ask_calls|].
  destruct (outcome _); try by constructor. apply IH.
Qed.

Lemma quiet_unfiltered (q : question) : qfilter q = unfiltered -> quiet q.
Proof. intros H v answers. rewrite H. by constructor. Qed.

Lemma quiet_usernameQ (w : World) : quiet (usernameQ w).
Proof.
  intros v answers. cbn [qfilter usernameQ]. unfold usernameFilter.
  rewrite bind_emit. simpl.
  constructor; [done|]. by destruct (isValidUsername w v false); constructor.
Qed.

Lemma quiet_passwordQ (w : World) : quiet (passwordQ w).
Proof.
  intros v answers. cbn [qfilter passwordQ]. unfold passwordFilter.
  rewrite bind_emit. simpl.
  constructor; [done|]. by destruct (isValidPassword w v); constructor.
Qed.

Lemma quiet_confirmPasswordQ (w : World) : quiet (confirmPasswordQ w).
Proof.
  intros v answers. cbn [qfilter confirmPasswordQ].
  unfold confirmPasswordFilter.
  case_decide; [by constructor|].
  rewrite bind_emit. simpl.
  constructor; [done|]. by destruct (isValidPassword w v); constructor.
Qed.

Lemma prompt_calls (w : World) (questions : list question) :
  Forall quiet questions ->
  Forall (isPromptCall (qname <$> questions)) (calls (prompt w questions)).
Proof.
  intros Hq. apply promptFrom_calls.
  apply Forall_forall. intros q Hin. split.
  - by apply list_elem_of_fmap_2.
  - by eapply Forall_forall in Hq.
Qed.

Lemma settingsPrompt_calls (w : World) (s : Setting) :
  Forall (isPromptCall ["organizationName"; "moderation"; "requireEmailConfirmation"])
    (calls (prompt w (settingsQuestions w s))).
Proof.
  apply (prompt_calls w (settingsQuestions w s)).
  repeat constructor; by apply quiet_unfiltered.
Qed.

Lemma whitelistPrompt_calls (w : World) :
  Forall (isPromptCall ["inputWhitelistedDomains"; "whitelistedDomain"])
    (calls (prompt w whitelistQuestions)).
Proof.
  apply (prompt_calls w whitelistQuestions).
  repeat constructor; by apply quiet_unfiltered.
Qed.

Lemma userPrompt_calls (w : World) :
  Forall (isPromptCall ["username"; "email"; "password"; "confirmPassword"])
    (calls (prompt w (userQuestions w))).
Proof.
  apply (prompt_calls w (userQuestions w)).
  repeat constructor;
    auto using quiet_usernameQ, quiet_passwordQ, quiet_confirmPasswordQ,
      quiet_unfiltered.
Qed.

(** The keys of the answers object of a prompt are names of its questions. *)
Lemma promptFrom_dom (w : World) (questions : list question)
    (answers answers' : gmap string value) :
  outcome (promptFrom w answers questions) = Normal answers' ->
  dom answers' ⊆ dom answers ∪ list_to_set (qname <$> questions).
Proof.
  revert answers. induction questions as [|q rest IH]; intros answers.
  - cbn [promptFrom ret outcome fst]. intros [= <-].
    apply union_subseteq_l.
  - cbn [promptFrom fmap list_fmap list_to_set].
    destruct (qwhen q answers).
    + rewrite outcome_bind. destruct (outcome (ask _ _ _)) as [v| | |]; try done.
      intros H. apply IH in H. rewrite dom_insert in H.
      intros k Hk. apply H in Hk. revert Hk.
      rewrite !elem_of_union. tauto.
    + intros H. apply IH in H.
      intros k Hk. apply H in Hk. revert Hk.
      rewrite !elem_of_union. tauto.
Qed.

Lemma settingsPrompt_keys (w : World) (s : Setting)
    (answers : gmap string value) (key : string) :
  outcome (prompt w (settingsQuestions w s)) = Normal answers ->
  is_Some (answers !! key) ->
  key ∈ ["organizationName"; "moderation"; "requireEmailConfirmation"].
Proof.
  intros H Hk. apply promptFrom_dom in H. apply elem_of_dom in Hk.
  apply H in Hk. revert Hk. cbn [fmap list_fmap list_to_set qname
    settingsQuestions organizationNameQ moderationQ requireEmailConfirmationQ].
  rewrite dom_empty, !elem_of_union, !elem_of_singleton, !elem_of_cons,
    elem_of_nil, elem_of_empty.
  tauto.
Qed.

(** ** Reading an answers object *)

Lemma get_insert_eq (key : string) (v : value) (obj : gmap string value) :
  get key (<[key := v]> obj) = v.
Proof. unfold get. by rewrite lookup_insert_eq. Qed.

Lemma get_insert_ne (key key' : string) (v : value) (obj : gmap string value) :
  key' ≠ key -> get key (<[key' := v]> obj) = get key obj.
Proof. intros H. unfold get. by rewrite lookup_insert_ne. Qed.

(** ** The whitelist questions: lines 113-133 *)

Lemma whitelistPrompt_run (w : World) :
  prompt w whitelistQuestions =
  match submitted w "inputWhitelistedDomains" with
  | [] => (Waiting, [])
  | g :: _ =>
      if truthy g then
        (match accepted (qvalidate whitelistedDomainQ)
                 (submitted w "whitelistedDomain") with
         | Some d =>
             Normal (<["whitelistedDomain" := d]>
                       (<["inputWhitelistedDomains" := g]> ∅))
         | None => Waiting
         end,
         EAsk "inputWhitelistedDomains" g ::
         map (EAsk "whitelistedDomain")
           (typedUntil (qvalidate whitelistedDomainQ)
              (submitted w "whitelistedDomain")))
      else (Normal (<["inputWhitelistedDomains" := g]> ∅),
            [EAsk "inputWhitelistedDomains" g])
  end.
Proof.
  unfold prompt, whitelistQuestions. cbn [promptFrom].
  cbn [qwhen inputWhitelistedDomainsQ always].
  rewrite (ask_unfiltered inputWhitelistedDomainsQ) by done.
  cbn [qname qvalidate inputWhitelistedDomainsQ].
  destruct (submitted w "inputWhitelistedDomains") as [|g gs]; [done|].
  rewrite accepted_valid. cbn [typedUntil valid map].
  rewrite bind_Normal.
  cbn [qwhen whitelistedDomainQ]. rewrite !get_insert_eq.
  destruct (truthy g); [|done].
  rewrite (ask_unfiltered whitelistedDomainQ) by done.
  cbn [qname whitelistedDomainQ]. rewrite outcome_bind, calls_bind.
  cbn [outcome calls fst snd].
  destruct (accepted _ _); cbn [ret fst snd]; by rewrite app_nil_r.
Qed.

(** ** The settings loop: lines 107-111 *)

Lemma assign_whitelist (key : string) (v : value) (s : Setting) :
  whitelist (assign key v s) = whitelist s.
Proof. unfold assign. by repeat case_decide. Qed.

Lemma updateSettings_whitelist (answers : gmap string value) (s : Setting) :
  whitelist (updateSettings answers s) = whitelist s.
Proof.
  unfold updateSettings.
  apply (map_fold_weak_ind (λ r _, whitelist r = whitelist s)); [done|].
  intros key v m r _ IH. case_decide; [done|]. by rewrite assign_whitelist.
Qed.

(** ** The administrator questions: lines 141-188 *)

Lemma userPrompt_Normal (w : World) (user : gmap string value) :
  outcome (prompt w (userQuestions w)) = Normal user ->
  ∃ ru rus un em rp rps pw rc rcs cv,
    submitted w "username" = ru :: rus ∧
    isValidUsername w ru false = inl un ∧
    accepted (qvalidate emailQ) (submitted w "email") = Some em ∧
    submitted w "password" = rp :: rps ∧
    isValidPassword w rp = inl pw ∧
    submitted w "confirmPassword" = rc :: rcs ∧
    pw = rc ∧
    isValidPassword w rc = inl cv ∧
    user = <["confirmPassword" := cv]> (<["password" := pw]>
             (<["email" := em]> (<["username" := un]> ∅))).
Proof.
  unfold prompt, userQuestions. cbn [promptFrom].
  cbn [qwhen usernameQ emailQ passwordQ confirmPasswordQ always qname].
  destruct (submitted w "username") as [|ru rus]; [done|].
  rewrite (ask_filtered (usernameQ w)) by done.
  cbn [qfilter usernameQ]. unfold usernameFilter at 1.
  rewrite bind_emit, outcome_bind. cbn [outcome fst].
  destruct (isValidUsername w ru false) as [un|m] eqn:Hun; [|done].
  cbn [orThrowMessage ret throw outcome fst].
  rewrite (ask_unfiltered emailQ) by done.
  rewrite outcome_bind. cbn [outcome fst].
  destruct (accepted (qvalidate emailQ) (submitted w "email")) as [em|] eqn:Hem;
    [|done].
  destruct (submitted w "password") as [|rp rps]; [done|].
  rewrite (ask_filtered (passwordQ w)) by done.
  cbn [qfilter passwordQ]. unfold passwordFilter at 1.
  rewrite bind_emit, outcome_bind. cbn [outcome fst].
  destruct (isValidPassword w rp) as [pw|m] eqn:Hpw; [|done].
  cbn [orThrowMessage ret throw outcome fst].
  destruct (submitted w "confirmPassword") as [|rc rcs]; [done|].
  rewrite (ask_filtered (confirmPasswordQ w)) by done.
  cbn [qfilter confirmPasswordQ]. unfold confirmPasswordFilter at 1.
  rewrite get_insert_eq.
  rewrite outcome_bind. cbn [outcome fst].
  case_decide as Hne; [done|].
  rewrite bind_emit. cbn [fst].
  destruct (isValidPassword w rc) as [cv|m] eqn:Hcv; [|done].
  cbn [orThrowMessage ret outcome fst]. intros [= <-].
  by exists ru, rus, un, em, rp, rps, pw, rc, rcs, cv.
Qed.

(** ** The wizard: lines 70-206 *)

Lemma setup_calls (w : World) (s : Setting) (user : gmap string value) :
  calls (newUserId <- SetupService_setup w s (userPayload user) ;;
         console_log settingsCreatedLine ;;
         console_log (userCreatedLine newUserId) ;;
         console_log installedLine ;;
         console_log lockLine) =
  ESetup s (userPayload user) ::
  match setup w s (userPayload user) with
  | inl id =>
      [ELog settingsCreatedLine; ELog (userCreatedLine id);
       ELog installedLine; ELog lockLine]
  | inr _ => []
  end.
Proof.
  unfold SetupService_setup, console_log. rewrite calls_bind, bind_emit.
  cbn [outcome calls fst snd].
  by destruct (setup w s (userPayload user)).
Qed.

Lemma wizard_calls (w : World) :
  calls (wizard w) =
  [ENewSetting; ELog introLine] ++
  calls (prompt w (settingsQuestions w (newSetting w))) ++
  match outcome (prompt w (settingsQuestions w (newSetting w))) with
  | Normal answers =>
      calls (prompt w whitelistQuestions) ++
      match outcome (prompt w whitelistQuestions) with
      | Normal answers' =>
          ELog adminLine ::
          calls (prompt w (userQuestions w)) ++
          match outcome (prompt w (userQuestions w)) with
          | Normal user =>
              let s := applyWhitelist answers'
                         (updateSettings answers (newSetting w)) in
              ESetup s (userPayload user) ::
              match setup w s (userPayload user) with
              | inl id =>
                  [ELog settingsCreatedLine; ELog (userCreatedLine id);
                   ELog installedLine; ELog lockLine]
              | inr _ => []
              end
          | _ => []
          end
      | _ => []
      end
  | _ => []
  end.
Proof.
  unfold wizard, new_SettingModel. rewrite bind_emit.
  cbn [ret outcome calls fst snd]. rewrite bind_Normal. cbn [app calls snd].
  unfold console_log at 1. rewrite bind_emit. cbn [calls snd].
  do 2 f_equal. rewrite calls_bind. f_equal.
  destruct (outcome (prompt w (settingsQuestions w (newSetting w))))
    as [answers| | |]; try done.
  rewrite calls_bind. f_equal.
  destruct (outcome (prompt w whitelistQuestions)) as [answers'| | |]; try done.
  unfold console_log at 1. rewrite bind_emit. cbn [calls snd]. f_equal.
  rewrite calls_bind. f_equal.
  destruct (outcome (prompt w (userQuestions w))) as [user| | |]; try done.
  apply setup_calls.
Qed.

Lemma wizard_outcome (w : World) :
  outcome (wizard w) =
  match outcome (prompt w (settingsQuestions w (newSetting w))) with
  | Normal answers =>
      match outcome (prompt w whitelistQuestions) with
      | Normal answers' =>
          match outcome (prompt w (userQuestions w)) with
          | Normal user =>
              match setup w (applyWhitelist answers'
                               (updateSettings answers (newSetting w)))
                      (userPayload user) with
              | inl _ => Normal tt
              | inr e => Thrown e
              end
          | Returned => Returned
          | Thrown e => Thrown e
          | Waiting => Waiting
          end
      | Returned => Returned
      | Thrown e => Thrown e
      | Waiting => Waiting
      end
  | Returned => Returned
  | Thrown e => Thrown e
  | Waiting => Waiting
  end.
Proof.
  unfold wizard, new_SettingModel. rewrite bind_emit.
  cbn [ret outcome calls fst snd]. rewrite bind_Normal. cbn [outcome fst].
  unfold console_log at 1. rewrite bind_emit. cbn [outcome fst].
  rewrite outcome_bind.
  destruct (outcome (prompt w (settingsQuestions w (newSetting w))))
    as [answers| | |]; try done.
  rewrite outcome_bind.
  destruct (outcome (prompt w whitelistQuestions)) as [answers'| | |]; try done.
  unfold console_log at 1. rewrite bind_emit. cbn [outcome fst].
  rewrite outcome_bind.
  destruct (outcome (prompt w (userQuestions w))) as [user| | |]; try done.
  unfold SetupService_setup, console_log. rewrite outcome_bind, bind_emit.
  cbn [outcome fst].
  by destruct (setup w _ (userPayload user)).
Qed.

Lemma isPromptCall_elem (names : list string) (t : trace) (e : event) :
  Forall (isPromptCall names) t -> e ∈ t -> isPromptCall names e.
Proof. intros H Hin. by eapply Forall_forall in H. Qed.

(** A [SetupService.setup] call of the wizard comes after the three prompts
    have resolved, with the settings and the user built from their
    answers. *)
Lemma wizard_setup_inv (w : World) (s : Setting) (u : gmap string value) :
  ESetup s u ∈ calls (wizard w) ->
  ∃ answers answers' user,
    outcome (prompt w (settingsQuestions w (newSetting w))) = Normal answers ∧
    outcome (prompt w whitelistQuestions) = Normal answers' ∧
    outcome (prompt w (userQuestions w)) = Normal user ∧
    s = applyWhitelist answers' (updateSettings answers (newSetting w)) ∧
    u = userPayload user.
Proof.
  rewrite wizard_calls.
  pose proof (settingsPrompt_calls w (newSetting w)) as H1.
  pose proof (whitelistPrompt_calls w) as H2.
  pose proof (userPrompt_calls w) as H3.
  rewrite !elem_of_app.
  intros [Hin|[Hin|Hin]].
  - apply elem_of_cons in Hin as [?|Hin]; [done|].
    apply elem_of_cons in Hin as [?|Hin]; [done|]. by apply elem_of_nil in Hin.
  - by apply (isPromptCall_elem _ _ _ H1) in Hin.
  - destruct (outcome (prompt w (settingsQuestions w (newSetting w))))
      as [answers| | |]; try by apply elem_of_nil in Hin.
    apply elem_of_app in Hin as [Hin|Hin];
      [by apply (isPromptCall_elem _ _ _ H2) in Hin|].
    destruct (outcome (prompt w whitelistQuestions)) as [answers'| | |];
      try by apply elem_of_nil in Hin.
    apply elem_of_cons in Hin as [?|Hin]; [done|].
    apply elem_of_app in Hin as [Hin|Hin];
      [by apply (isPromptCall_elem _ _ _ H3) in Hin|].
    destruct (outcome (prompt w (userQuestions w))) as [user| | |];
      try by apply elem_of_nil in Hin.
    cbn zeta in Hin.
    apply elem_of_cons in Hin as [Heq|Hin].
    + injection Heq as -> ->. by exists answers, answers', user.
    + destruct (setup w _ _); [|by apply elem_of_nil in Hin].
      repeat (apply elem_of_cons in Hin as [?|Hin]; [done|]).
      by apply elem_of_nil in Hin.
Qed.

(** The whitelist questions are asked by the second prompt only. *)
Lemma wizard_ask_whitelist_inv (w : World) (name : string) (v : value) :
  name ∈ ["inputWhitelistedDomains"; "whitelistedDomain"] ->
  EAsk name v ∈ calls (wizard w) ->
  EAsk name v ∈ calls (prompt w whitelistQuestions).
Proof.
  intros Hname. rewrite wizard_calls.
  pose proof (settingsPrompt_calls w (newSetting w)) as H1.
  pose proof (userPrompt_calls w) as H3.
  assert (Hn1 : name ∉ ["organizationName"; "moderation"; "requireEmailConfirmation"]).
  { revert Hname. rewrite !elem_of_cons, !elem_of_nil.
    intuition (subst; discriminate). }
  assert (Hn3 : name ∉ ["username"; "email"; "password"; "confirmPassword"]).
  { revert Hname. rewrite !elem_of_cons, !elem_of_nil.
    intuition (subst; discriminate). }
  rewrite !elem_of_app.
  intros [Hin|[Hin|Hin]].
  - repeat (apply elem_of_cons in Hin as [?|Hin]; [done|]).
    by apply elem_of_nil in Hin.
  - by apply (isPromptCall_elem _ _ _ H1) in Hin.
  - destruct (outcome (prompt w (settingsQuestions w (newSetting w))))
      as [answers| | |]; try by apply elem_of_nil in Hin.
    apply elem_of_app in Hin as [Hin|Hin]; [done|].
    destruct (outcome (prompt w whitelistQuestions)) as [answers'| | |];
      try by apply elem_of_nil in Hin.
    apply elem_of_cons in Hin as [?|Hin]; [done|].
    apply elem_of_app in Hin as [Hin|Hin];
      [by apply (isPromptCall_elem _ _ _ H3) in Hin|].
    destruct (outcome (prompt w (userQuestions w))) as [user| | |];
      try by apply elem_of_nil in Hin.
    cbn zeta in Hin.
    apply elem_of_cons in Hin as [?|Hin]; [done|].
    destruct (setup w _ _); [|by apply elem_of_nil in Hin].
    repeat (apply elem_of_cons in Hin as [?|Hin]; [done|]).
    by apply elem_of_nil in Hin.
Qed.

Lemma installSteps_interactive (w : World) :
  defaults w = false -> installSteps w = wizard w.
Proof. intros H. unfold installSteps. by rewrite H. Qed.

Lemma installSteps_defaults (w : World) :
  defaults w = true -> installSteps w = applyDefaults w.
Proof. intros H. unfold installSteps. by rewrite H. Qed.

(** The answer recorded for the gate question is the first input typed at
    it. *)
Lemma gate_answer (w : World) (g : value) :
  EAsk "inputWhitelistedDomains" g ∈ calls (wizard w) ->
  ∃ gs, submitted w "inputWhitelistedDomains" = g :: gs.
Proof.
  intros Hin. apply wizard_ask_whitelist_inv in Hin.
  2:{ apply elem_of_cons. by left. }
  rewrite whitelistPrompt_run in Hin.
  destruct (submitted w "inputWhitelistedDomains") as [|g' gs];
    [by apply elem_of_nil in Hin|].
  exists gs. f_equal.
  destruct (truthy g'); cbn [calls snd] in Hin.
  - apply elem_of_cons in Hin as [[= ->]|Hin]; [done|].
    apply list_elem_of_fmap in Hin as (d & [=] & _).
  - apply elem_of_cons in Hin as [[= ->]|Hin]; [done|].
    by apply elem_of_nil in Hin.
Qed.

(** Every call of the wizard is the model construction, a printed line, a
    prompt call or the setup call. *)
Lemma wizard_calls_kinds (w : World) (e : event) :
  e ∈ calls (wizard w) ->
  match e with
  | ENewSetting | ELog _ | EAsk _ _ | EValidUsername _ | EValidPassword _
  | ESetup _ _ => True
  | _ => False
  end.
Proof.
  rewrite wizard_calls.
  pose proof (settingsPrompt_calls w (newSetting w)) as H1.
  pose proof (whitelistPrompt_calls w) as H2.
  pose proof (userPrompt_calls w) as H3.
  assert (Hp : ∀ names t, Forall (isPromptCall names) t -> e ∈ t ->
    match e with
    | ENewSetting | ELog _ | EAsk _ _ | EValidUsername _ | EValidPassword _
    | ESetup _ _ => True
    | _ => False
    end).
  { intros names t Ht Hin. apply (isPromptCall_elem _ _ _ Ht) in Hin.
    by destruct e. }
  rewrite !elem_of_app.
  intros [Hin|[Hin|Hin]]; [|by apply (Hp _ _ H1)|].
  - repeat (apply elem_of_cons in Hin as [->|Hin]; [done|]).
    by apply elem_of_nil in Hin.
  - destruct (outcome (prompt w (settingsQuestions w (newSetting w))));
      try by apply elem_of_nil in Hin.
    apply elem_of_app in Hin as [Hin|Hin]; [by apply (Hp _ _ H2)|].
    destruct (outcome (prompt w whitelistQuestions));
      try by apply elem_of_nil in Hin.
    apply elem_of_cons in Hin as [->|Hin]; [done|].
    apply elem_of_app in Hin as [Hin|Hin]; [by apply (Hp _ _ H3)|].
    destruct (outcome (prompt w (userQuestions w)));
      try by apply elem_of_nil in Hin.
    cbn zeta in Hin.
    apply elem_of_cons in Hin as [->|Hin]; [done|].
    destruct (setup w _ _); [|by apply elem_of_nil in Hin].
    repeat (apply elem_of_cons in Hin as [->|Hin]; [done|]).
    by apply elem_of_nil in Hin.
Qed.

(** ** The success report *)

(** The wizard prints the closing line of the success report only when
    [SetupService.setup] has resolved, and it then ends normally. *)
Lemma wizard_report_inv (w : World) :
  ELog installedLine ∈ calls (wizard w) -> outcome (wizard w) = Normal tt.
Proof.
  rewrite wizard_calls, wizard_outcome.
  pose proof (settingsPrompt_calls w (newSetting w)) as H1.
  pose proof (whitelistPrompt_calls w) as H2.
  pose proof (userPrompt_calls w) as H3.
  rewrite !elem_of_app.
  intros [Hin|[Hin|Hin]].
  - repeat (apply elem_of_cons in Hin as [[=]|Hin]).
    by apply elem_of_nil in Hin.
  - by apply (isPromptCall_elem _ _ _ H1) in Hin.
  - destruct (outcome (prompt w (settingsQuestions w (newSetting w))));
      try by apply elem_of_nil in Hin.
    apply elem_of_app in Hin as [Hin|Hin];
      [by apply (isPromptCall_elem _ _ _ H2) in Hin|].
    destruct (outcome (prompt w whitelistQuestions));
      try by apply elem_of_nil in Hin.
    apply elem_of_cons in Hin as [[=]|Hin].
    apply elem_of_app in Hin as [Hin|Hin];
      [by apply (isPromptCall_elem _ _ _ H3) in Hin|].
    destruct (outcome (prompt w (userQuestions w)));
      try by apply elem_of_nil in Hin.
    cbn zeta in Hin.
    apply elem_of_cons in Hin as [[=]|Hin].
    destruct (setup w _ _); [done|by apply elem_of_nil in Hin].
Qed.

(** The steps after the guard never print the success report in a run that
    throws. *)
Lemma installSteps_failure_without_report (w : World) (e : thrown) :
  outcome (installSteps w) = Thrown e ->
  reportsSuccess (calls (installSteps w)) = false.
Proof.
  intros Hthrown. apply bool_decide_eq_false. intros Hin.
  unfold installSteps in *. destruct (defaults w).
  - rewrite applyDefaults_run in *.
    destruct (init w); [|destruct (listPending w) as [ms|];
      [destruct (run w ms)|]]; cbn [outcome calls fst snd] in *; try done;
      repeat (apply elem_of_cons in Hin as [[=]|Hin]);
      by apply elem_of_nil in Hin.
  - apply wizard_report_inv in Hin. by rewrite Hin in Hthrown.
Qed.

(** A rejected [performSetup] is reported: the error is printed, the process
    shuts down with code 1 and no success report is printed. *)
Lemma failed_run_reported (w : World) (e : thrown) :
  outcome (performSetup w) = Thrown e ->
  main w = [ERetrieve; EError e; EShutdown (Some 1%Z)] ∧
  exitCode (main w) = Some 1%Z ∧
  reportsSuccess (main w) = false.
Proof.
  intros Hthrown.
  assert (Hrun : performSetup w = (Thrown e, [ERetrieve])).
  { rewrite performSetup_run, checkSettings_run in *.
    destruct (retrieve w) as [s|err].
    - by injection Hthrown as <-.
    - destruct (instanceofErrSettingsNotInit err); [done|].
      by injection Hthrown as <-. }
  rewrite (main_failed _ _ _ Hrun). split; [done|]. split; [done|].
  apply bool_decide_eq_false. intros Hin.
  repeat (apply elem_of_cons in Hin as [[=]|Hin]). by apply elem_of_nil in Hin.
Qed.

(** ** The confirm-password question: lines 174-187 *)

Lemma promptFrom_app (w : World) (questions questions' : list question)
    (answers : gmap string value) :
  promptFrom w answers (questions ++ questions') =
  bind (promptFrom w answers questions) (λ a, promptFrom w a questions').
Proof.
  revert answers. induction questions as [|q rest IH]; intros answers.
  - cbn [app promptFrom]. by rewrite bind_ret.
  - cbn [app promptFrom]. destruct (qwhen q answers); [|apply IH].
    rewrite bind_assoc. apply bind_ext. intros v. apply IH.
Qed.

(** The filter of the confirm question on a mismatch and on a match. *)
Lemma confirmPasswordFilter_mismatch (w : World) (answers : gmap string value)
    (confirm : value) :
  get "password" answers ≠ confirm ->
  confirmPasswordFilter w confirm answers =
  (Thrown (JsError "Passwords do not match"), []).
Proof. intros H. unfold confirmPasswordFilter. by case_decide. Qed.

Lemma confirmPasswordFilter_match (w : World) (answers : gmap string value)
    (confirm : value) :
  get "password" answers = confirm ->
  confirmPasswordFilter w confirm answers = passwordFilter w confirm answers.
Proof.
  intros H. unfold confirmPasswordFilter, passwordFilter. by case_decide.
Qed.

Lemma passwordFilter_calls (w : World) (password : value)
    (answers : gmap string value) :
  calls (passwordFilter w password answers) = [EValidPassword password].
Proof.
  unfold passwordFilter. rewrite bind_emit. cbn [calls snd].
  by destruct (isValidPassword w password).
Qed.

(** The administrator prompt is the first three questions followed by the
    confirm question. *)
Lemma userPrompt_split (w : World) :
  prompt w (userQuestions w) =
  bind (promptFrom w ∅ [usernameQ w; emailQ; passwordQ w])
    (λ a, v <- ask (confirmPasswordQ w) a (submitted w "confirmPassword") ;;
          ret (<["confirmPassword" := v]> a)).
Proof.
  unfold prompt, userQuestions.
  by rewrite (promptFrom_app w [usernameQ w; emailQ; passwordQ w]
                [confirmPasswordQ w]).
Qed.

Lemma credentials_calls (w : World) :
  Forall (isPromptCall ["username"; "email"; "password"])
    (calls (promptFrom w ∅ [usernameQ w; emailQ; passwordQ w])).
Proof.
  apply promptFrom_calls.
  repeat constructor;
    auto using quiet_usernameQ, quiet_passwordQ, quiet_unfiltered;
    by_decision.
Qed.

(** When the confirm question is asked, the questions before it have
    resolved and the value recorded is the first input typed at it. *)
Lemma confirm_asked (w : World) (c : value) :
  EAsk "confirmPassword" c ∈ calls (prompt w (userQuestions w)) ->
  ∃ answers t rest,
    promptFrom w ∅ [usernameQ w; emailQ; passwordQ w] = (Normal answers, t) ∧
    submitted w "confirmPassword" = c :: rest ∧
    prompt w (userQuestions w) =
      (match outcome (confirmPasswordFilter w c answers) with
       | Normal v => Normal (<["confirmPassword" := v]> answers)
       | Returned => Returned
       | Thrown e => Thrown e
       | Waiting => Waiting
       end,
       t ++ EAsk "confirmPassword" c ::
            calls (confirmPasswordFilter w c answers)).
Proof.
  rewrite userPrompt_split.
  pose proof (credentials_calls w) as Hc.
  assert (Hno : ∀ t, Forall (isPromptCall ["username"; "email"; "password"]) t ->
                     EAsk "confirmPassword" c ∉ t).
  { intros t Ht Hin. apply (isPromptCall_elem _ _ _ Ht) in Hin.
    cbn [isPromptCall] in Hin. revert Hin.
    rewrite !elem_of_cons, elem_of_nil. intuition discriminate. }
  destruct (promptFrom w ∅ [usernameQ w; emailQ; passwordQ w])
    as [[answers| |e|] t]; cbn [calls snd] in Hc;
    [|intros Hin; by apply (Hno t Hc) in Hin..].
  rewrite bind_Normal.
  destruct (submitted w "confirmPassword") as [|c' rest].
  { cbn [ask waiting bind calls snd]. rewrite app_nil_r. intros Hin.
    by apply (Hno t Hc) in Hin. }
  rewrite (ask_filtered (confirmPasswordQ w)) by done.
  cbn [qfilter qname confirmPasswordQ].
  pose proof (quiet_confirmPasswordQ w c' answers) as Hq.
  cbn [qfilter confirmPasswordQ] in Hq.
  rewrite outcome_bind, calls_bind. cbn [outcome calls fst snd].
  intros Hin.
  assert (c' = c) as ->.
  { apply elem_of_app in Hin as [Hin|Hin]; [by apply (Hno t Hc) in Hin|].
    apply elem_of_app in Hin as [Hin|Hin].
    - apply elem_of_cons in Hin as [[= ->]|Hin]; [done|].
      apply (isPromptCall_elem _ _ _ Hq) in Hin.
      by apply elem_of_nil in Hin.
    - destruct (outcome (confirmPasswordFilter w c' answers));
        by apply elem_of_nil in Hin. }
  exists answers, t, rest. split; [done|]. split; [done|].
  destruct (outcome (confirmPasswordFilter w c answers));
    cbn [ret outcome calls fst snd]; by rewrite app_nil_r.
Qed.

(** The administrator questions are asked by the third prompt only, once
    the first two prompts have resolved. *)
Lemma wizard_ask_user_inv (w : World) (name : string) (v : value) :
  name ∈ ["username"; "email"; "password"; "confirmPassword"] ->
  EAsk name v ∈ calls (wizard w) ->
  ∃ answers answers',
    outcome (prompt w (settingsQuestions w (newSetting w))) = Normal answers ∧
    outcome (prompt w whitelistQuestions) = Normal answers' ∧
    EAsk name v ∈ calls (prompt w (userQuestions w)).
Proof.
  intros Hname. rewrite wizard_calls.
  pose proof (settingsPrompt_calls w (newSetting w)) as H1.
  pose proof (whitelistPrompt_calls w) as H2.
  assert (Hn1 : name ∉ ["organizationName"; "moderation"; "requireEmailConfirmation"]).
  { revert Hname. rewrite !elem_of_cons, !elem_of_nil.
    intuition (subst; discriminate). }
  assert (Hn2 : name ∉ ["inputWhitelistedDomains"; "whitelistedDomain"]).
  { revert Hname. rewrite !elem_of_cons, !elem_of_nil.
    intuition (subst; discriminate). }
  rewrite !elem_of_app.
  intros [Hin|[Hin|Hin]].
  - repeat (apply elem_of_cons in Hin as [?|Hin]; [done|]).
    by apply elem_of_nil in Hin.
  - by apply (isPromptCall_elem _ _ _ H1) in Hin.
  - destruct (outcome (prompt w (settingsQuestions w (newSetting w))))
      as [answers| | |]; try by apply elem_of_nil in Hin.
    apply elem_of_app in Hin as [Hin|Hin];
      [by apply (isPromptCall_elem _ _ _ H2) in Hin|].
    destruct (outcome (prompt w whitelistQuestions)) as [answers'| | |];
      try by apply elem_of_nil in Hin.
    exists answers, answers'. split; [done|]. split; [done|].
    apply elem_of_cons in Hin as [?|Hin]; [done|].
    apply elem_of_app in Hin as [Hin|Hin]; [done|].
    destruct (outcome (prompt w (userQuestions w))) as [user| | |];
      try by apply elem_of_nil in Hin.
    cbn zeta in Hin.
    apply elem_of_cons in Hin as [?|Hin]; [done|].
    destruct (setup w _ _); [|by apply elem_of_nil in Hin].
    repeat (apply elem_of_cons in Hin as [?|Hin]; [done|]).
    by apply elem_of_nil in Hin.
Qed.

(** C5. In a run of the interactive steps that asks the confirm question,
    the questions before it have resolved to some answers, and the value
    typed is first
    compared with the password answer.  When they differ the filter rejects
    with the mismatch error without calling the strength validator: the run
    throws that error and the confirm question is its last call.  When they
    are equal the filter is the strength validation of the password
    question, and the validator is called on the confirm value right after
    the question. *)
Theorem C5_confirm_checked_before_strength (w : World) (c : value) :
  defaults w = false ->
  EAsk "confirmPassword" c ∈ calls (installSteps w) ->
  ∃ answers t,
    promptFrom w ∅ [usernameQ w; emailQ; passwordQ w] = (Normal answers, t) ∧
    (get "password" answers ≠ c ->
     confirmPasswordFilter w c answers =
       (Thrown (JsError "Passwords do not match"), []) ∧
     outcome (installSteps w) = Thrown (JsError "Passwords do not match") ∧
     ∃ before, calls (installSteps w) = before ++ [EAsk "confirmPassword" c]) ∧
    (get "password" answers = c ->
     confirmPasswordFilter w c answers = passwordFilter w c answers ∧
     ∃ before after,
       calls (installSteps w) =
       before ++ [EAsk "confirmPassword" c; EValidPassword c] ++ after).
Proof.
  intros Hd Hin. rewrite (installSteps_interactive _ Hd) in *.
  apply wizard_ask_user_inv in Hin as (a1 & a2 & H1 & H2 & Hin).
  2:{ by_decision. }
  apply confirm_asked in Hin as (answers & t & rest & Hcred & _ & Hrun).
  exists answers, t. split; [done|].
  rewrite wizard_outcome, wizard_calls, H1, H2, Hrun.
  cbn [outcome calls fst snd]. split.
  - intros Hne. rewrite (confirmPasswordFilter_mismatch _ _ _ Hne).
    split; [done|]. split; [done|]. cbn [outcome calls fst snd].
    eexists ([ENewSetting; ELog introLine] ++
             calls (prompt w (settingsQuestions w (newSetting w))) ++
             calls (prompt w whitelistQuestions) ++ ELog adminLine :: t).
    rewrite app_nil_r.
    by repeat (rewrite <- app_assoc || rewrite <- app_comm_cons).
  - intros Heq. rewrite (confirmPasswordFilter_match _ _ _ Heq).
    split; [done|]. rewrite passwordFilter_calls.
    eexists ([ENewSetting; ELog introLine] ++
             calls (prompt w (settingsQuestions w (newSetting w))) ++
             calls (prompt w whitelistQuestions) ++ ELog adminLine :: t), _.
    repeat (rewrite <- app_assoc || rewrite <- app_comm_cons).
    reflexivity.
Qed.

Lemma C5_confirm_checked_before_strength_witness :
  ∃ answers t,
    promptFrom mismatch ∅ [usernameQ mismatch; emailQ; passwordQ mismatch] =
      (Normal answers, t) ∧
    (get "password" answers ≠ VStr "different" ->
     confirmPasswordFilter mismatch (VStr "different") answers =
       (Thrown (JsError "Passwords do not match"), []) ∧
     outcome (installSteps mismatch) =
       Thrown (JsError "Passwords do not match") ∧
     ∃ before, calls (installSteps mismatch) =
               before ++ [EAsk "confirmPassword" (VStr "different")]) ∧
    (get "password" answers = VStr "different" ->
     confirmPasswordFilter mismatch (VStr "different") answers =
       passwordFilter mismatch (VStr "different") answers ∧
     ∃ before after,
       calls (installSteps mismatch) =
       before ++ [EAsk "confirmPassword" (VStr "different");
                  EValidPassword (VStr "different")] ++ after).
Proof.
  apply (C5_confirm_checked_before_strength mismatch (VStr "different")).
  - reflexivity.
  - by_decision.
Defined.

(** The example of the specification: password Abc12345 confirmed as
    different.  The wizard throws the mismatch error, the validator is never
    called on the confirm value and nothing is persisted. *)
Example mismatch_run :
  outcome (installSteps mismatch) = Thrown (JsError "Passwords do not match") ∧
  filter (λ e, bool_decide (e = EValidPassword (VStr "different")))
    (calls (installSteps mismatch)) = [] ∧
  existsb isPersist (calls (installSteps mismatch)) = false.
Proof. by vm_compute. Qed.

(** ** The whitelist: lines 113-137 *)

(** C6. In a run of the interactive steps where the gate question was
    answered true, the settings handed to [SetupService.setup] have as
    whitelist the single domain accepted at the domain question, whatever
    the whitelist of the fresh settings model was. *)
Theorem C6_whitelist_replaced (w : World) (g : value) (s : Setting)
    (u : gmap string value) :
  defaults w = false ->
  EAsk "inputWhitelistedDomains" g ∈ calls (installSteps w) ->
  truthy g = true ->
  ESetup s u ∈ calls (installSteps w) ->
  ∃ d, accepted (qvalidate whitelistedDomainQ)
         (submitted w "whitelistedDomain") = Some d ∧
       nonEmpty d = true ∧
       whitelist s = [d].
Proof.
  intros Hd Hg Ht Hs. rewrite (installSteps_interactive _ Hd) in Hg, Hs.
  apply gate_answer in Hg as [gs Hg].
  apply wizard_setup_inv in Hs as (a1 & a2 & a3 & _ & H2 & _ & -> & _).
  rewrite whitelistPrompt_run, Hg, Ht in H2. cbn [outcome fst] in H2.
  destruct (accepted _ _) as [d|] eqn:Hacc; [|done].
  injection H2 as <-. exists d. split; [done|]. split.
  - apply accepted_Some in Hacc as [Hv _]. cbn [qvalidate whitelistedDomainQ] in Hv.
    by destruct (nonEmpty d).
  - unfold applyWhitelist.
    rewrite get_insert_ne, !get_insert_eq, Ht by done. done.
Qed.

Lemma C6_whitelist_replaced_witness :
  ∃ d, accepted (qvalidate whitelistedDomainQ)
         (submitted example "whitelistedDomain") = Some d ∧
       nonEmpty d = true ∧
       whitelist (mkSetting (VStr "Acme") (VStr "PRE") (VBool true)
                    [VStr "example.com"]) = [d].
Proof.
  apply (C6_whitelist_replaced example (VBool true) _
           (userPayload {[ "email" := VStr "a@b.com";
                           "username" := VStr "admin";
                           "password" := VStr "Str0ngPass!" ]})).
  - reflexivity.
  - by_decision.
  - reflexivity.
  - by_decision.
Defined.

(** C7. In a run of the interactive steps where the gate question was
    answered false, the domain question is never asked and the settings
    handed to [SetupService.setup] keep the whitelist of the fresh settings
    model. *)
Theorem C7_whitelist_untouched (w : World) (g : value) :
  defaults w = false ->
  EAsk "inputWhitelistedDomains" g ∈ calls (installSteps w) ->
  truthy g = false ->
  (∀ v, EAsk "whitelistedDomain" v ∉ calls (installSteps w)) ∧
  (∀ s u, ESetup s u ∈ calls (installSteps w) ->
          whitelist s = whitelist (newSetting w)).
Proof.
  intros Hd Hg Ht. rewrite (installSteps_interactive _ Hd) in *.
  apply gate_answer in Hg as [gs Hg].
  pose proof (whitelistPrompt_run w) as Hrun. rewrite Hg, Ht in Hrun.
  split.
  - intros v Hin. apply wizard_ask_whitelist_inv in Hin.
    2:{ apply elem_of_cons. right. apply elem_of_cons. by left. }
    rewrite Hrun in Hin. cbn [calls snd] in Hin.
    apply elem_of_cons in Hin as [[=]|Hin]. by apply elem_of_nil in Hin.
  - intros s u Hs.
    apply wizard_setup_inv in Hs as (a1 & a2 & a3 & _ & H2 & _ & -> & _).
    rewrite Hrun in H2. injection H2 as <-.
    unfold applyWhitelist. rewrite get_insert_eq, Ht.
    apply updateSettings_whitelist.
Qed.

Lemma C7_whitelist_untouched_witness :
  (∀ v, EAsk "whitelistedDomain" v ∉ calls (installSteps acme)) ∧
  (∀ s u, ESetup s u ∈ calls (installSteps acme) ->
          whitelist s = whitelist (newSetting acme)).
Proof.
  apply (C7_whitelist_untouched acme (VBool false)).
  - reflexivity.
  - by_decision.
  - reflexivity.
Defined.

(** ** The setup call: lines 190-198 *)

(** C10. In a run of the interactive steps, the user object handed to
    [SetupService.setup] holds the three keys email, username and password
    with the answers collected for them, and has no confirmPassword key,
    although the answers object of the prompt did hold one. *)
Theorem C10_user_payload (w : World) (s : Setting) (u : gmap string value) :
  defaults w = false ->
  ESetup s u ∈ calls (installSteps w) ->
  ∃ user un em pw,
    outcome (prompt w (userQuestions w)) = Normal user ∧
    user !! "username" = Some un ∧
    user !! "email" = Some em ∧
    user !! "password" = Some pw ∧
    is_Some (user !! "confirmPassword") ∧
    u = {[ "email" := em; "username" := un; "password" := pw ]} ∧
    dom u = {[ "email" ]} ∪ {[ "username" ]} ∪ {[ "password" ]} ∧
    u !! "confirmPassword" = None.
Proof.
  intros Hd Hs. rewrite (installSteps_interactive _ Hd) in Hs.
  apply wizard_setup_inv in Hs as (a1 & a2 & user & _ & _ & H3 & _ & ->).
  pose proof (userPrompt_Normal _ _ H3)
    as (ru & rus & un & em & rp & rps & pw & rc & rcs & cv
        & _ & _ & _ & _ & _ & _ & _ & _ & ->).
  exists (<["confirmPassword" := cv]> (<["password" := pw]>
           (<["email" := em]> (<["username" := un]> ∅)))), un, em, pw.
  split_and!.
  - done.
  - do 3 (rewrite lookup_insert_ne by done). apply lookup_insert_eq.
  - do 2 (rewrite lookup_insert_ne by done). apply lookup_insert_eq.
  - rewrite lookup_insert_ne by done. apply lookup_insert_eq.
  - by rewrite lookup_insert_eq.
  - unfold userPayload.
    do 3 (rewrite ?get_insert_ne by done; rewrite get_insert_eq). done.
  - unfold userPayload.
    rewrite !dom_insert_L, dom_singleton_L. by rewrite (assoc_L (∪)).
  - unfold userPayload.
    by rewrite !lookup_insert_ne, lookup_singleton_ne.
Qed.

Lemma C10_user_payload_witness :
  ∃ user un em pw,
    outcome (prompt acme (userQuestions acme)) = Normal user ∧
    user !! "username" = Some un ∧
    user !! "email" = Some em ∧
    user !! "password" = Some pw ∧
    is_Some (user !! "confirmPassword") ∧
    ({[ "email" := VStr "a@b.com"; "username" := VStr "admin";
        "password" := VStr "Str0ngPass!" ]} : gmap string value) =
      {[ "email" := em; "username" := un; "password" := pw ]} ∧
    dom ({[ "email" := VStr "a@b.com"; "username" := VStr "admin";
            "password" := VStr "Str0ngPass!" ]} : gmap string value) =
      {[ "email" ]} ∪ {[ "username" ]} ∪ {[ "password" ]} ∧
    ({[ "email" := VStr "a@b.com"; "username" := VStr "admin";
        "password" := VStr "Str0ngPass!" ]} : gmap string value)
      !! "confirmPassword" = None.
Proof.
  apply (C10_user_payload acme
           (mkSetting (VStr "Acme") (VStr "PRE") (VBool true) [])).
  - reflexivity.
  - by_decision.
Defined.

(** ** The end-to-end scenario

    Organization Acme, pre-moderation, confirmed emails, no whitelist,
    administrator admin: the interactive steps hand these settings and this
    user to [SetupService.setup] and print the success report; the run of
    [performSetup] itself stops at the guard. *)
Example acme_run :
  outcome (installSteps acme) = Normal tt ∧
  ESetup (mkSetting (VStr "Acme") (VStr "PRE") (VBool true) [])
    {[ "email" := VStr "a@b.com"; "username" := VStr "admin";
       "password" := VStr "Str0ngPass!" ]} ∈ calls (installSteps acme) ∧
  reportsSuccess (calls (installSteps acme)) = true ∧
  main acme = [ERetrieve; EShutdown None].
Proof. split_and!; [done| by_decision | by vm_compute | by vm_compute]. Qed.

(** * Further properties of the script *)

(** ** The guard and the promise chain: lines 36-53 and 209-216 *)

(** X1. When [SettingsService.retrieve] rejects with anything but
    [ErrSettingsNotInit], the catch block rethrows that very error:
    [performSetup] makes no other call, the error is printed and the process
    shuts down with code 1, nothing having been written. *)
Theorem X1_other_store_error_is_rethrown (w : World) (e : thrown) :
  retrieve w = inr e ->
  e ≠ ErrSettingsNotInit ->
  performSetup w = (Thrown e, [ERetrieve]) ∧
  main w = [ERetrieve; EError e; EShutdown (Some 1%Z)] ∧
  filter isWrite (main w) = [] ∧
  exitCode (main w) = Some 1%Z.
Proof.
  intros Hr Hne.
  assert (Hrun : performSetup w = (Thrown e, [ERetrieve])).
  { rewrite performSetup_run, checkSettings_run, Hr. by destruct e. }
  split; [done|]. rewrite (main_failed _ _ _ Hrun). by vm_compute.
Qed.

Lemma X1_other_store_error_is_rethrown_witness :
  performSetup storeDown =
    (Thrown (ServiceError "MongoNetworkError"), [ERetrieve]) ∧
  main storeDown =
    [ERetrieve; EError (ServiceError "MongoNetworkError");
     EShutdown (Some 1%Z)] ∧
  filter isWrite (main storeDown) = [] ∧
  exitCode (main storeDown) = Some 1%Z.
Proof.
  apply (X1_other_store_error_is_rethrown storeDown
           (ServiceError "MongoNetworkError")).
  - reflexivity.
  - discriminate.
Defined.

(** X2. Every run shuts the process down, and the exit code is 0 exactly
    when [retrieve] rejected with [ErrSettingsNotInit]; in every other case
    (a settings record exists, or the store failed otherwise) it is 1. *)
Theorem X2_exit_code (w : World) :
  exitCode (main w) =
  Some (if decide (retrieve w = inr ErrSettingsNotInit) then 0%Z else 1%Z).
Proof.
  unfold main. rewrite performSetup_run, checkSettings_run.
  destruct (retrieve w) as [s|e]; [by case_decide|].
  destruct e; by case_decide.
Qed.

(** X3. The run is decided by the answer of [retrieve] alone: two runs
    whose stores answer alike make the same calls, whatever the mode, the
    input at the prompt or the other services; and those calls are the
    probe, at most one printed error and the shutdown. *)
Theorem X3_run_decided_by_store (w w' : World) :
  retrieve w = retrieve w' ->
  main w = main w' ∧
  Forall (λ e, match e with
               | ERetrieve | EError _ | EShutdown _ => True
               | _ => False
               end) (main w).
Proof.
  intros H. unfold main. rewrite !performSetup_run, !checkSettings_run, <- H.
  split; [done|].
  destruct (retrieve w) as [s|e]; [by repeat constructor|].
  destruct (instanceofErrSettingsNotInit e); by repeat constructor.
Qed.

Lemma X3_run_decided_by_store_witness :
  main freshDefaults = main acme ∧
  Forall (λ e, match e with
               | ERetrieve | EError _ | EShutdown _ => True
               | _ => False
               end) (main freshDefaults).
Proof. apply (X3_run_decided_by_store freshDefaults acme). reflexivity. Defined.

(** ** The defaults branch: lines 55-68 *)

(** X4. Under [--defaults] the steps after the guard return, and print the
    success report, exactly when [SettingsService.init],
    [MigrationService.listPending] and [MigrationService.run] on the listed
    migrations all resolve. *)
Theorem X4_defaults_report_iff_all_resolve (w : World) :
  defaults w = true ->
  (outcome (installSteps w) = Returned ↔
   init w = None ∧ ∃ ms, listPending w = inl ms ∧ run w ms = None) ∧
  (reportsSuccess (calls (installSteps w)) = true ↔
   outcome (installSteps w) = Returned).
Proof.
  intros Hd. rewrite (installSteps_defaults _ Hd), applyDefaults_run.
  unfold reportsSuccess.
  destruct (init w) as [e|].
  { split; (split; [done|]); [by intros [? _]|done]. }
  destruct (listPending w) as [ms|e].
  2:{ split; (split; [done|]); [by intros (_ & ms & ? & _)|done]. }
  destruct (run w ms) as [e|] eqn:Hrun.
  - split; (split; [done|]); [|done].
    intros (_ & ms' & [= <-] & Hn). by rewrite Hrun in Hn.
  - split; (split; [|done]); [by eauto|done].
Qed.

Lemma X4_defaults_report_iff_all_resolve_witness :
  (outcome (installSteps freshDefaults) = Returned ↔
   init freshDefaults = None ∧
   ∃ ms, listPending freshDefaults = inl ms ∧ run freshDefaults ms = None) ∧
  (reportsSuccess (calls (installSteps freshDefaults)) = true ↔
   outcome (installSteps freshDefaults) = Returned).
Proof. apply (X4_defaults_report_iff_all_resolve freshDefaults). reflexivity. Defined.

(** X5. Under [--defaults] an error thrown by the steps after the guard is
    the rejection of the first service that fails, and the failing call is
    the last one made: a failed [init] is followed by no migration call, a
    failed [listPending] by no [run], and a failed [run] by no printed
    line. *)
Theorem X5_defaults_stop_at_first_failure (w : World) (e : thrown) :
  defaults w = true ->
  outcome (installSteps w) = Thrown e ->
  (init w = Some e ∧ calls (installSteps w) = [EInit]) ∨
  (init w = None ∧ listPending w = inr e ∧
   calls (installSteps w) = [EInit; EListPending]) ∨
  (init w = None ∧ ∃ ms, listPending w = inl ms ∧ run w ms = Some e ∧
   calls (installSteps w) = [EInit; EListPending; ERun ms]).
Proof.
  intros Hd. rewrite (installSteps_defaults _ Hd), applyDefaults_run.
  destruct (init w) as [e'|].
  { intros [= <-]. by left. }
  destruct (listPending w) as [ms|e'].
  2:{ intros [= <-]. right. by left. }
  destruct (run w ms) as [e'|] eqn:Hrun; [|done].
  intros [= <-]. right. right. split; [done|]. by exists ms.
Qed.

Lemma X5_defaults_stop_at_first_failure_witness :
  (init migrationFails = Some (ServiceError "migration failed") ∧
   calls (installSteps migrationFails) = [EInit]) ∨
  (init migrationFails = None ∧
   listPending migrationFails = inr (ServiceError "migration failed") ∧
   calls (installSteps migrationFails) = [EInit; EListPending]) ∨
  (init migrationFails = None ∧
   ∃ ms, listPending migrationFails = inl ms ∧
         run migrationFails ms = Some (ServiceError "migration failed") ∧
         calls (installSteps migrationFails) = [EInit; EListPending; ERun ms]).
Proof.
  apply (X5_defaults_stop_at_first_failure migrationFails
           (ServiceError "migration failed")); reflexivity.
Defined.

(** ** The two modes *)

(** X6. The two branches after the guard share no service call.  Under
    [--defaults] the steps call [SettingsService.init] and the migration
    service and print lines: no question is asked, no validator and no
    [SetupService.setup] call is made, so no administrator is created.
    Without the flag they build the model, prompt, call the validators and
    [SetupService.setup] and print lines: [SettingsService.init] and the
    migration service are never called. *)
Theorem X6_modes_call_disjoint_services (w : World) :
  (defaults w = true ->
   Forall (λ e, match e with
                | EInit | EListPending | ERun _ | ELog _ => True
                | _ => False
                end) (calls (installSteps w))) ∧
  (defaults w = false ->
   Forall (λ e, match e with
                | ENewSetting | ELog _ | EAsk _ _ | EValidUsername _
                | EValidPassword _ | ESetup _ _ => True
                | _ => False
                end) (calls (installSteps w))).
Proof.
  split; intros Hd.
  - rewrite (installSteps_defaults _ Hd), applyDefaults_run.
    destruct (init w); [by repeat constructor|].
    destruct (listPending w) as [ms|]; [|by repeat constructor].
    destruct (run w ms); by repeat constructor.
  - rewrite (installSteps_interactive _ Hd). apply Forall_forall.
    intros e Hin. by apply wizard_calls_kinds in Hin.
Qed.

Lemma X6_modes_call_disjoint_services_witness :
  Forall (λ e, match e with
               | EInit | EListPending | ERun _ | ELog _ => True
               | _ => False
               end) (calls (installSteps migrationFails)) ∧
  Forall (λ e, match e with
               | ENewSetting | ELog _ | EAsk _ _ | EValidUsername _
               | EValidPassword _ | ESetup _ _ => True
               | _ => False
               end) (calls (installSteps acme)).
Proof.
  split.
  - apply (proj1 (X6_modes_call_disjoint_services migrationFails)). reflexivity.
  - apply (proj2 (X6_modes_call_disjoint_services acme)). reflexivity.
Defined.

(** ** The settings loop: lines 107-111 *)

Lemma answerOr_insert_eq (answers : gmap string value) (key : string)
    (v old : value) :
  answerOr (<[key := v]> answers) key old =
  if decide (v = VUndefined) then old else v.
Proof. unfold answerOr. by rewrite lookup_insert_eq. Qed.

Lemma answerOr_insert_ne (answers : gmap string value) (key key' : string)
    (v old : value) :
  key' ≠ key ->
  answerOr (<[key' := v]> answers) key old = answerOr answers key old.
Proof. intros H. unfold answerOr. by rewrite lookup_insert_ne. Qed.

Lemma answerOr_fresh (answers : gmap string value) (key : string) (old : value) :
  answers !! key = None -> answerOr answers key old = old.
Proof. intros H. unfold answerOr. by rewrite H. Qed.

Lemma answerOr_insert_undefined (answers : gmap string value)
    (key key' : string) (old : value) :
  answers !! key' = None ->
  answerOr (<[key' := VUndefined]> answers) key old = answerOr answers key old.
Proof.
  intros H. destruct (decide (key' = key)) as [->|Hne].
  - by rewrite answerOr_insert_eq, answerOr_fresh.
  - by rewrite answerOr_insert_ne.
Qed.

Lemma updateSettings_fields (answers : gmap string value) (s : Setting) :
  updateSettings answers s =
  mkSetting (answerOr answers "organizationName" (organizationName s))
            (answerOr answers "moderation" (moderation s))
            (answerOr answers "requireEmailConfirmation"
               (requireEmailConfirmation s))
            (whitelist s).
Proof.
  unfold updateSettings.
  apply (map_fold_weak_ind (λ r m,
    r = mkSetting (answerOr m "organizationName" (organizationName s))
          (answerOr m "moderation" (moderation s))
          (answerOr m "requireEmailConfirmation" (requireEmailConfirmation s))
          (whitelist s))).
  { by destruct s. }
  intros key v m r Hfresh ->.
  destruct (decide (v = VUndefined)) as [->|Hv].
  - by rewrite !(answerOr_insert_undefined _ _ _ _ Hfresh).
  - unfold assign. cbn [organizationName moderation requireEmailConfirmation
                        whitelist].
    destruct (decide (key = "organizationName")) as [->|H1].
    { rewrite answerOr_insert_eq, !answerOr_insert_ne by done.
      by destruct (decide (v = VUndefined)). }
    destruct (decide (key = "moderation")) as [->|H2].
    { rewrite answerOr_insert_eq, !answerOr_insert_ne by done.
      by destruct (decide (v = VUndefined)). }
    destruct (decide (key = "requireEmailConfirmation")) as [->|H3].
    { rewrite answerOr_insert_eq, !answerOr_insert_ne by done.
      by destruct (decide (v = VUndefined)). }
    by rewrite !answerOr_insert_ne.
Qed.

(** X7. For an answers object whose keys are names of the three settings
    questions, the loop over its keys copies each answer into the settings
    field of the same name, except an answer that is [undefined]: each field
    ends up with its defined answer or else keeps its former value, and the
    whitelist is not touched. *)
Theorem X7_settings_loop_copies_defined_answers
    (answers : gmap string value) (s : Setting) :
  (∀ key, is_Some (answers !! key) ->
          key ∈ ["organizationName"; "moderation"; "requireEmailConfirmation"]) ->
  organizationName (updateSettings answers s) =
    answerOr answers "organizationName" (organizationName s) ∧
  moderation (updateSettings answers s) =
    answerOr answers "moderation" (moderation s) ∧
  requireEmailConfirmation (updateSettings answers s) =
    answerOr answers "requireEmailConfirmation" (requireEmailConfirmation s) ∧
  whitelist (updateSettings answers s) = whitelist s.
Proof. intros _. by rewrite updateSettings_fields. Qed.

Lemma X7_settings_loop_copies_defined_answers_witness :
  let answers : gmap string value :=
    {[ "organizationName" := VStr "Acme"; "moderation" := VUndefined ]} in
  organizationName (updateSettings answers engineDefaults) =
    answerOr answers "organizationName" (organizationName engineDefaults) ∧
  moderation (updateSettings answers engineDefaults) =
    answerOr answers "moderation" (moderation engineDefaults) ∧
  requireEmailConfirmation (updateSettings answers engineDefaults) =
    answerOr answers "requireEmailConfirmation"
      (requireEmailConfirmation engineDefaults) ∧
  whitelist (updateSettings answers engineDefaults) = whitelist engineDefaults.
Proof.
  apply (X7_settings_loop_copies_defined_answers
           {[ "organizationName" := VStr "Acme"; "moderation" := VUndefined ]}
           engineDefaults).
  intros key [v Hv].
  destruct (decide (key = "organizationName")) as [->|H1]; [by_decision|].
  destruct (decide (key = "moderation")) as [->|H2]; [by_decision|].
  rewrite lookup_insert_ne, lookup_singleton_ne in Hv by done. done.
Defined.

(** ** The settings questions: lines 77-111 *)

Lemma nonEmpty_inv (v : value) :
  nonEmpty v = true -> ∃ str, v = VStr str ∧ str ≠ "".
Proof.
  destruct v as [|b|str]; try done.
  - unfold nonEmpty. by rewrite andb_false_r.
  - intros H. exists str. split; [done|]. intros ->. done.
Qed.

Lemma settingsPrompt_Normal (w : World) (s : Setting)
    (answers : gmap string value) :
  outcome (prompt w (settingsQuestions w s)) = Normal answers ->
  ∃ org m ms r rs,
    accepted (qvalidate (organizationNameQ s))
      (submitted w "organizationName") = Some org ∧
    submitted w "moderation" = m :: ms ∧
    submitted w "requireEmailConfirmation" = r :: rs ∧
    answers = <["requireEmailConfirmation" := r]> (<["moderation" := m]>
                (<["organizationName" := org]> ∅)).
Proof.
  unfold prompt, settingsQuestions. cbn [promptFrom].
  cbn [qwhen organizationNameQ moderationQ requireEmailConfirmationQ always
       qname].
  rewrite (ask_unfiltered (organizationNameQ s)) by done.
  rewrite outcome_bind. cbn [outcome fst].
  destruct (accepted (qvalidate (organizationNameQ s))
              (submitted w "organizationName")) as [org|] eqn:Horg; [|done].
  rewrite (ask_unfiltered (moderationQ w s)) by done.
  cbn [qvalidate qname moderationQ].
  rewrite outcome_bind. cbn [outcome fst].
  destruct (submitted w "moderation") as [|m ms]; [done|].
  rewrite accepted_valid.
  rewrite (ask_unfiltered (requireEmailConfirmationQ s)) by done.
  cbn [qvalidate qname requireEmailConfirmationQ].
  rewrite outcome_bind. cbn [outcome fst].
  destruct (submitted w "requireEmailConfirmation") as [|r rs]; [done|].
  rewrite accepted_valid. cbn [ret outcome fst]. intros [= <-].
  by exists org, m, ms, r, rs.
Qed.

(** X8. In a run of the interactive steps, the settings handed to
    [SetupService.setup] carry the answers of the settings questions: the
    organization name is the first input at its question that is a
    non-empty string, and the moderation mode and the email-confirmation
    flag are the first inputs at theirs, unless that input is [undefined],
    in which case the field keeps the value of the fresh settings model. *)
Theorem X8_settings_carry_answers (w : World) (s : Setting)
    (u : gmap string value) :
  defaults w = false ->
  ESetup s u ∈ calls (installSteps w) ->
  ∃ org m ms r rs,
    accepted (qvalidate (organizationNameQ (newSetting w)))
      (submitted w "organizationName") = Some org ∧
    submitted w "moderation" = m :: ms ∧
    submitted w "requireEmailConfirmation" = r :: rs ∧
    (∃ str, org = VStr str ∧ str ≠ "") ∧
    organizationName s = org ∧
    moderation s =
      (if decide (m = VUndefined) then moderation (newSetting w) else m) ∧
    requireEmailConfirmation s =
      (if decide (r = VUndefined) then requireEmailConfirmation (newSetting w)
       else r).
Proof.
  intros Hd Hs. rewrite (installSteps_interactive _ Hd) in Hs.
  apply wizard_setup_inv in Hs as (a1 & a2 & a3 & H1 & _ & _ & -> & _).
  apply settingsPrompt_Normal in H1 as (org & m & ms & r & rs & Horg & Hm & Hr & ->).
  exists org, m, ms, r, rs. split; [done|]. split; [done|]. split; [done|].
  assert (Hne : ∃ str, org = VStr str ∧ str ≠ "").
  { apply accepted_Some in Horg as [Hv _].
    cbn [qvalidate organizationNameQ] in Hv.
    apply nonEmpty_inv. by destruct (nonEmpty org). }
  split; [done|].
  assert (Hkeep : ∀ a st,
    organizationName (applyWhitelist a st) = organizationName st ∧
    moderation (applyWhitelist a st) = moderation st ∧
    requireEmailConfirmation (applyWhitelist a st) =
      requireEmailConfirmation st).
  { intros a st. unfold applyWhitelist. by destruct (truthy _). }
  destruct (Hkeep a2 (updateSettings
    (<["requireEmailConfirmation" := r]> (<["moderation" := m]>
       (<["organizationName" := org]> ∅))) (newSetting w)))
    as (-> & -> & ->).
  rewrite updateSettings_fields.
  cbn [organizationName moderation requireEmailConfirmation].
  rewrite answerOr_insert_eq.
  rewrite (answerOr_insert_ne _ "moderation") by done.
  rewrite answerOr_insert_eq.
  do 2 (rewrite (answerOr_insert_ne _ "organizationName") by done).
  rewrite answerOr_insert_eq.
  destruct Hne as (str & -> & _). done.
Qed.

Lemma X8_settings_carry_answers_witness :
  ∃ org m ms r rs,
    accepted (qvalidate (organizationNameQ (newSetting acme)))
      (submitted acme "organizationName") = Some org ∧
    submitted acme "moderation" = m :: ms ∧
    submitted acme "requireEmailConfirmation" = r :: rs ∧
    (∃ str, org = VStr str ∧ str ≠ "") ∧
    organizationName (mkSetting (VStr "Acme") (VStr "PRE") (VBool true) []) =
      org ∧
    moderation (mkSetting (VStr "Acme") (VStr "PRE") (VBool true) []) =
      (if decide (m = VUndefined) then moderation (newSetting acme) else m) ∧
    requireEmailConfirmation
      (mkSetting (VStr "Acme") (VStr "PRE") (VBool true) []) =
      (if decide (r = VUndefined)
       then requireEmailConfirmation (newSetting acme) else r).
Proof.
  apply (X8_settings_carry_answers acme _
           {[ "email" := VStr "a@b.com"; "username" := VStr "admin";
              "password" := VStr "Str0ngPass!" ]}).
  - reflexivity.
  - by_decision.
Defined.

(** ** The administrator questions: lines 141-198 *)

(** X9. In a run of the interactive steps, the email handed to
    [SetupService.setup] is a string of at least three characters: the first
    input at the email question that passes its validation. *)
Theorem X9_email_has_three_characters (w : World) (s : Setting)
    (u : gmap string value) :
  defaults w = false ->
  ESetup s u ∈ calls (installSteps w) ->
  ∃ str, u !! "email" = Some (VStr str) ∧
         3 ≤ String.length str ∧
         accepted (qvalidate emailQ) (submitted w "email") = Some (VStr str).
Proof.
  intros Hd Hs. rewrite (installSteps_interactive _ Hd) in Hs.
  apply wizard_setup_inv in Hs as (a1 & a2 & user & _ & _ & H3 & _ & ->).
  apply userPrompt_Normal in H3
    as (ru & rus & un & em & rp & rps & pw & rc & rcs & cv
        & _ & _ & Hem & _ & _ & _ & _ & _ & ->).
  pose proof (accepted_Some _ _ _ Hem) as [Hv _].
  cbn [qvalidate emailQ] in Hv.
  destruct em as [|b|str]; try done.
  { by destruct b. }
  exists str. split; [|split; [|done]].
  - unfold userPayload.
    rewrite lookup_insert_eq.
    by do 2 (rewrite get_insert_ne by done); rewrite get_insert_eq.
  - cbn [lengthGe jsLength] in Hv.
    destruct (truthy (VStr str)); [|done].
    cbn [andb] in Hv. destruct (3 <=? String.length str)%nat eqn:Hle; [|done].
    by apply Nat.leb_le.
Qed.

Lemma X9_email_has_three_characters_witness :
  ∃ str,
    ({[ "email" := VStr "a@b.com"; "username" := VStr "admin";
        "password" := VStr "Str0ngPass!" ]} : gmap string value) !! "email" =
      Some (VStr str) ∧
    3 ≤ String.length str ∧
    accepted (qvalidate emailQ) (submitted acme "email") = Some (VStr str).
Proof.
  apply (X9_email_has_three_characters acme
           (mkSetting (VStr "Acme") (VStr "PRE") (VBool true) [])).
  - reflexivity.
  - by_decision.
Defined.

(** X10. In a run of the interactive steps, the password handed to
    [SetupService.setup] is the value the strength validator resolved for
    the first input at the password question; it is, value for value, the
    first input at the confirm question, and the validator resolved for that
    input as well. *)
Theorem X10_password_is_confirmed_value (w : World) (s : Setting)
    (u : gmap string value) :
  defaults w = false ->
  ESetup s u ∈ calls (installSteps w) ->
  ∃ typed rest confirm rest' resolved,
    submitted w "password" = typed :: rest ∧
    isValidPassword w typed = inl confirm ∧
    submitted w "confirmPassword" = confirm :: rest' ∧
    isValidPassword w confirm = inl resolved ∧
    u !! "password" = Some confirm.
Proof.
  intros Hd Hs. rewrite (installSteps_interactive _ Hd) in Hs.
  apply wizard_setup_inv in Hs as (a1 & a2 & user & _ & _ & H3 & _ & ->).
  apply userPrompt_Normal in H3
    as (ru & rus & un & em & rp & rps & pw & rc & rcs & cv
        & _ & _ & _ & Hp & Hpw & Hc & -> & Hcv & ->).
  exists rp, rps, rc, rcs, cv. by split_and!.
Qed.

Lemma X10_password_is_confirmed_value_witness :
  ∃ typed rest confirm rest' resolved,
    submitted acme "password" = typed :: rest ∧
    isValidPassword acme typed = inl confirm ∧
    submitted acme "confirmPassword" = confirm :: rest' ∧
    isValidPassword acme confirm = inl resolved ∧
    ({[ "email" := VStr "a@b.com"; "username" := VStr "admin";
        "password" := VStr "Str0ngPass!" ]} : gmap string value)
      !! "password" = Some confirm.
Proof.
  apply (X10_password_is_confirmed_value acme
           (mkSetting (VStr "Acme") (VStr "PRE") (VBool true) [])).
  - reflexivity.
  - by_decision.
Defined.

(** *** A rejecting validator *)

(** When a question that has no validation, only a filter, is asked, the
    questions before it have resolved and the value recorded is the first
    input typed at it; if its filter throws, so does the whole prompt, right
    after the calls of the filter. *)
Lemma rejected_question (w : World) (before after : list question)
    (q : question) (v : value) :
  qvalidate q = valid -> qwhen q = always -> quiet q ->
  Forall (λ q', qname q' ≠ qname q ∧ quiet q') before ->
  Forall (λ q', qname q' ≠ qname q ∧ quiet q') after ->
  EAsk (qname q) v ∈ calls (promptFrom w ∅ (before ++ q :: after)) ->
  ∃ answers t rest,
    promptFrom w ∅ before = (Normal answers, t) ∧
    submitted w (qname q) = v :: rest ∧
    ∀ e, outcome (qfilter q v answers) = Thrown e ->
         promptFrom w ∅ (before ++ q :: after) =
         (Thrown e, t ++ EAsk (qname q) v :: calls (qfilter q v answers)).
Proof.
  intros Hvalid Hwhen Hquiet Hbefore Hafter.
  assert (Hno : ∀ (qs : list question) a,
    Forall (λ q', qname q' ≠ qname q ∧ quiet q') qs ->
    EAsk (qname q) v ∉ calls (promptFrom w a qs)).
  { intros qs a Hqs Hin.
    assert (Hc : Forall (isPromptCall (qname <$> qs)) (calls (promptFrom w a qs))).
    { apply promptFrom_calls. apply Forall_forall. intros q' Hq'. split.
      - by apply list_elem_of_fmap_2.
      - by destruct (proj1 (Forall_forall _ _) Hqs q' Hq'). }
    apply (isPromptCall_elem _ _ _ Hc) in Hin. cbn [isPromptCall] in Hin.
    apply list_elem_of_fmap in Hin as (q' & Heq & Hq').
    destruct (proj1 (Forall_forall _ _) Hqs q' Hq') as [Hne _].
    by symmetry in Heq. }
  rewrite (promptFrom_app w before (q :: after)).
  destruct (promptFrom w ∅ before) as [[answers| |e|] t] eqn:Hb;
    [|intros Hin; cbn [bind calls snd] in Hin;
      exfalso; apply (Hno before ∅ Hbefore); by rewrite Hb..].
  rewrite bind_Normal. cbn [promptFrom]. rewrite Hwhen. cbn [always].
  destruct (submitted w (qname q)) as [|v' rest].
  { cbn [ask waiting bind calls snd]. rewrite app_nil_r. intros Hin.
    exfalso. apply (Hno before ∅ Hbefore). by rewrite Hb. }
  rewrite (ask_filtered q) by done.
  rewrite outcome_bind, calls_bind. cbn [outcome calls fst snd].
  intros Hin.
  assert (v' = v) as ->.
  { apply elem_of_app in Hin as [Hin|Hin].
    { exfalso. apply (Hno before ∅ Hbefore). by rewrite Hb. }
    apply elem_of_app in Hin as [Hin|Hin].
    - apply elem_of_cons in Hin as [[= ->]|Hin]; [done|].
      apply (isPromptCall_elem _ _ _ (Hquiet v' answers)) in Hin.
      by apply elem_of_nil in Hin.
    - destruct (outcome (qfilter q v' answers)) as [x| | |];
        try by apply elem_of_nil in Hin.
      by apply Hno in Hin. }
  exists answers, t, rest. split; [done|]. split; [done|].
  intros e He. rewrite He. by rewrite app_nil_r.
Qed.

(** A prompt of the wizard that throws ends the wizard with the same error,
    and its calls are the last ones of the run. *)
Lemma wizard_user_prompt_throws (w : World) (a1 a2 : gmap string value)
    (e : thrown) (t : trace) :
  outcome (prompt w (settingsQuestions w (newSetting w))) = Normal a1 ->
  outcome (prompt w whitelistQuestions) = Normal a2 ->
  prompt w (userQuestions w) = (Thrown e, t) ->
  outcome (wizard w) = Thrown e ∧
  ∃ before, calls (wizard w) = before ++ t.
Proof.
  intros H1 H2 H3. rewrite wizard_outcome, wizard_calls, H1, H2, H3.
  cbn [outcome calls fst snd]. split; [done|].
  eexists ([ENewSetting; ELog introLine] ++
           calls (prompt w (settingsQuestions w (newSetting w))) ++
           calls (prompt w whitelistQuestions) ++ [ELog adminLine]).
  rewrite app_nil_r.
  by repeat (rewrite <- app_assoc || rewrite <- app_comm_cons).
Qed.

(** X11. In a run of the interactive steps, when the username validator
    rejects the username typed, the run throws the message of that
    rejection (the message, not the error object) and the validator call is
    its last call: no later question is asked and [SetupService.setup] is
    not called. *)
Theorem X11_rejected_username_ends_run (w : World) (username m : value) :
  defaults w = false ->
  EAsk "username" username ∈ calls (installSteps w) ->
  isValidUsername w username false = inr m ->
  outcome (installSteps w) = Thrown (Message m) ∧
  ∃ before, calls (installSteps w) =
            before ++ [EAsk "username" username; EValidUsername username].
Proof.
  intros Hd Hin Hrej. rewrite (installSteps_interactive _ Hd) in *.
  apply wizard_ask_user_inv in Hin as (a1 & a2 & H1 & H2 & Hin);
    [|by_decision].
  apply (rejected_question w [] [emailQ; passwordQ w; confirmPasswordQ w]
           (usernameQ w)) in Hin as (answers & t & rest & Hb & _ & Hrun);
    try done; auto using quiet_usernameQ.
  2:{ repeat constructor; try done;
        auto using quiet_passwordQ, quiet_confirmPasswordQ, quiet_unfiltered. }
  injection Hb as <- <-.
  assert (Hf : qfilter (usernameQ w) username ∅ =
               (Thrown (Message m), [EValidUsername username])).
  { cbn [qfilter usernameQ]. unfold usernameFilter.
    by rewrite bind_emit, Hrej. }
  specialize (Hrun (Message m)). rewrite Hf in Hrun.
  specialize (Hrun eq_refl). cbn [app qname usernameQ calls snd] in Hrun.
  apply (wizard_user_prompt_throws w a1 a2 _ _ H1 H2 Hrun).
Qed.

Lemma X11_rejected_username_ends_run_witness :
  outcome (installSteps takenUsername) =
    Thrown (Message (VStr "Username already in use")) ∧
  ∃ before, calls (installSteps takenUsername) =
            before ++ [EAsk "username" (VStr "admin");
                       EValidUsername (VStr "admin")].
Proof.
  apply (X11_rejected_username_ends_run takenUsername).
  - reflexivity.
  - by_decision.
  - reflexivity.
Defined.

(** X12. In a run of the interactive steps, when the strength validator
    rejects the password typed, the run throws the message of that
    rejection and the validator call is its last call: the confirm question
    is not asked and [SetupService.setup] is not called. *)
Theorem X12_rejected_password_ends_run (w : World) (password m : value) :
  defaults w = false ->
  EAsk "password" password ∈ calls (installSteps w) ->
  isValidPassword w password = inr m ->
  outcome (installSteps w) = Thrown (Message m) ∧
  ∃ before, calls (installSteps w) =
            before ++ [EAsk "password" password; EValidPassword password].
Proof.
  intros Hd Hin Hrej. rewrite (installSteps_interactive _ Hd) in *.
  apply wizard_ask_user_inv in Hin as (a1 & a2 & H1 & H2 & Hin);
    [|by_decision].
  apply (rejected_question w [usernameQ w; emailQ] [confirmPasswordQ w]
           (passwordQ w)) in Hin as (answers & t & rest & Hb & _ & Hrun);
    try done; auto using quiet_passwordQ.
  2,3: repeat constructor; try done;
         auto using quiet_usernameQ, quiet_confirmPasswordQ, quiet_unfiltered.
  assert (Hf : qfilter (passwordQ w) password answers =
               (Thrown (Message m), [EValidPassword password])).
  { cbn [qfilter passwordQ]. unfold passwordFilter.
    by rewrite bind_emit, Hrej. }
  specialize (Hrun (Message m)). rewrite Hf in Hrun.
  specialize (Hrun eq_refl). cbn [app qname passwordQ calls snd] in Hrun.
  destruct (wizard_user_prompt_throws w a1 a2 _ _ H1 H2 Hrun)
    as [Hout [before Hcalls]].
  split; [done|]. exists (before ++ t). by rewrite Hcalls, <- app_assoc.
Qed.

Lemma X12_rejected_password_ends_run_witness :
  outcome (installSteps weakPassword) =
    Thrown (Message (VStr "Password is too short")) ∧
  ∃ before, calls (installSteps weakPassword) =
            before ++ [EAsk "password" (VStr "Str0ngPass!");
                       EValidPassword (VStr "Str0ngPass!")].
Proof.
  apply (X12_rejected_password_ends_run weakPassword).
  - reflexivity.
  - by_decision.
  - reflexivity.
Defined.

(** ** The setup call and the report: lines 190-206 *)

Lemma isPromptCall_not_persist (names : list string) (t : trace) :
  Forall (isPromptCall names) t -> Forall (λ e, isPersist e = false) t.
Proof. intros H. eapply Forall_impl; [exact H|]. by intros []. Qed.

(** X13. In a run of the interactive steps, the [SetupService.setup] call
    is the only call that persists anything.  When it resolves, the run ends
    normally right after printing the four lines of the report, the second of
    which names the id of the user the service returned; when it rejects,
    the run throws that error and prints nothing after the call. *)
Theorem X13_setup_result_is_reported (w : World) (s : Setting)
    (u : gmap string value) :
  defaults w = false ->
  ESetup s u ∈ calls (installSteps w) ->
  ∃ before,
    Forall (λ e, isPersist e = false) before ∧
    match setup w s u with
    | inl id =>
        outcome (installSteps w) = Normal tt ∧
        calls (installSteps w) =
          before ++ [ESetup s u; ELog settingsCreatedLine;
                     ELog (userCreatedLine id); ELog installedLine;
                     ELog lockLine]
    | inr e =>
        outcome (installSteps w) = Thrown e ∧
        calls (installSteps w) = before ++ [ESetup s u]
    end.
Proof.
  intros Hd Hs. rewrite (installSteps_interactive _ Hd) in *.
  apply wizard_setup_inv in Hs as (a1 & a2 & a3 & H1 & H2 & H3 & -> & ->).
  exists ([ENewSetting; ELog introLine] ++
          calls (prompt w (settingsQuestions w (newSetting w))) ++
          calls (prompt w whitelistQuestions) ++
          ELog adminLine :: calls (prompt w (userQuestions w))).
  split.
  - apply Forall_app; split; [by repeat constructor|].
    apply Forall_app; split;
      [apply (isPromptCall_not_persist _ _ (settingsPrompt_calls w _))|].
    apply Forall_app; split;
      [apply (isPromptCall_not_persist _ _ (whitelistPrompt_calls w))|].
    apply Forall_cons; split; [done|].
    apply (isPromptCall_not_persist _ _ (userPrompt_calls w)).
  - rewrite wizard_outcome, wizard_calls, H1, H2, H3. cbn zeta.
    destruct (setup w _ _); (split; [done|]);
      by repeat (rewrite <- app_assoc || rewrite <- app_comm_cons).
Qed.

Lemma X13_setup_result_is_reported_witness :
  ∃ before,
    Forall (λ e, isPersist e = false) before ∧
    match setup setupFails
            (mkSetting (VStr "Acme") (VStr "PRE") (VBool true) [])
            {[ "email" := VStr "a@b.com"; "username" := VStr "admin";
               "password" := VStr "Str0ngPass!" ]} with
    | inl id =>
        outcome (installSteps setupFails) = Normal tt ∧
        calls (installSteps setupFails) =
          before ++ [ESetup (mkSetting (VStr "Acme") (VStr "PRE") (VBool true) [])
                       {[ "email" := VStr "a@b.com"; "username" := VStr "admin";
                          "password" := VStr "Str0ngPass!" ]};
                     ELog settingsCreatedLine;
                     ELog (userCreatedLine id); ELog installedLine;
                     ELog lockLine]
    | inr e =>
        outcome (installSteps setupFails) = Thrown e ∧
        calls (installSteps setupFails) =
          before ++ [ESetup (mkSetting (VStr "Acme") (VStr "PRE") (VBool true) [])
                       {[ "email" := VStr "a@b.com"; "username" := VStr "admin";
                          "password" := VStr "Str0ngPass!" ]}]
    end.
Proof.
  apply (X13_setup_result_is_reported setupFails).
  - reflexivity.
  - by_decision.
Defined.

(** ** The order of the prompts: lines 77-188 *)

(** X14. The three prompts run one after the other.  In a run of the
    interactive steps where an administrator question is asked, the settings
    prompt and the whitelist prompt have both resolved before: the calls of
    the run are the model construction and the opening line, the calls of
    the settings prompt, those of the whitelist prompt, the line announcing
    the administrator questions, and only then the question. *)
Theorem X14_administrator_questions_come_last (w : World) (name : string)
    (v : value) :
  defaults w = false ->
  name ∈ ["username"; "email"; "password"; "confirmPassword"] ->
  EAsk name v ∈ calls (installSteps w) ->
  ∃ answers t answers' t' rest,
    prompt w (settingsQuestions w (newSetting w)) = (Normal answers, t) ∧
    prompt w whitelistQuestions = (Normal answers', t') ∧
    calls (installSteps w) =
      [ENewSetting; ELog introLine] ++ t ++ t' ++ ELog adminLine :: rest ∧
    EAsk name v ∈ rest.
Proof.
  intros Hd Hname Hin. rewrite (installSteps_interactive _ Hd) in *.
  apply wizard_ask_user_inv in Hin as (a1 & a2 & H1 & H2 & Hin); [|done].
  rewrite wizard_calls, H1, H2.
  destruct (prompt w (settingsQuestions w (newSetting w))) as [o1 t1].
  destruct (prompt w whitelistQuestions) as [o2 t2].
  cbn [outcome calls fst snd] in *. subst o1 o2.
  eexists a1, t1, a2, t2, _. split; [done|]. split; [done|].
  split; [reflexivity|].
  apply elem_of_app. by left.
Qed.

Lemma X14_administrator_questions_come_last_witness :
  ∃ answers t answers' t' rest,
    prompt acme (settingsQuestions acme (newSetting acme)) =
      (Normal answers, t) ∧
    prompt acme whitelistQuestions = (Normal answers', t') ∧
    calls (installSteps acme) =
      [ENewSetting; ELog introLine] ++ t ++ t' ++ ELog adminLine :: rest ∧
    EAsk "email" (VStr "a@b.com") ∈ rest.
Proof.
  apply (X14_administrator_questions_come_last acme).
  - reflexivity.
  - by_decision.
  - by_decision.
Defined.

(** X15. In a run of the interactive steps, the username handed to
    [SetupService.setup] is the value that
    [UsersService.isValidUsername(username, false)] resolved for the first
    input at the username question: a username the validator rejected
    never reaches the setup call. *)
Theorem X15_username_is_validated_value (w : World) (s : Setting)
    (u : gmap string value) :
  defaults w = false ->
  ESetup s u ∈ calls (installSteps w) ->
  ∃ typed rest resolved,
    submitted w "username" = typed :: rest ∧
    isValidUsername w typed false = inl resolved ∧
    u !! "username" = Some resolved.
Proof.
  intros Hd Hs. rewrite (installSteps_interactive _ Hd) in Hs.
  apply wizard_setup_inv in Hs as (a1 & a2 & user & _ & _ & H3 & _ & ->).
  apply userPrompt_Normal in H3
    as (ru & rus & un & em & rp & rps & pw & rc & rcs & cv
        & Hu & Hun & _ & _ & _ & _ & _ & _ & ->).
  exists ru, rus, un. by split_and!.
Qed.

Lemma X15_username_is_validated_value_witness :
  ∃ typed rest resolved,
    submitted acme "username" = typed :: rest ∧
    isValidUsername acme typed false = inl resolved ∧
    ({[ "email" := VStr "a@b.com"; "username" := VStr "admin";
        "password" := VStr "Str0ngPass!" ]} : gmap string value)
      !! "username" = Some resolved.
Proof.
  apply (X15_username_is_validated_value acme
           (mkSetting (VStr "Acme") (VStr "PRE") (VBool true) [])).
  - reflexivity.
  - by_decision.
Defined.

(** ** The migrations of the defaults branch: lines 55-68 *)

(** X16. Under [--defaults], when [SettingsService.init] resolves,
    [MigrationService.listPending] resolves with a list and
    [MigrationService.run] resolves on it, the steps after the guard make
    exactly these calls, in this order: [init], [listPending], [run] on
    exactly the listed migrations, and the two lines of the report.  Each
    service is called once, nothing is run that was not listed, and the
    branch returns. *)
Theorem X16_defaults_runs_listed_migrations_once (w : World)
    (ms : list migration) :
  defaults w = true ->
  init w = None ->
  listPending w = inl ms ->
  run w ms = None ->
  installSteps w =
    (Returned,
     [EInit; EListPending; ERun ms;
      ELog settingsCreatedLine; ELog installedLine]).
Proof.
  intros Hd Hi Hl Hr.
  by rewrite (installSteps_defaults _ Hd), applyDefaults_run, Hi, Hl, Hr.
Qed.

Lemma X16_defaults_runs_listed_migrations_once_witness :
  installSteps freshDefaults =
    (Returned,
     [EInit; EListPending; ERun ["1516920160_a"; "1517407355_b"];
      ELog settingsCreatedLine; ELog installedLine]).
Proof.
  apply (X16_defaults_runs_listed_migrations_once freshDefaults
           ["1516920160_a"; "1517407355_b"]); reflexivity.
Defined.
